(** * emu-log: a shallow embedding of [emu_log.go]

    The program has three parts that the development covers:
    - the scheduler loop of [main], which computes [nextRun] from
      [time.Now()] (module [Sched]);
    - the per-bureau resolvers [Bureau.TrainNo] of the two entries of
      [bureaus] (module [Resolver]);
    - the batch runner [iterVehicles] with its SQLite statements and
      [checkFatal] (module [Batch]). *)

From Stdlib Require Import ZArith Lia List String Ascii Bool Sorted.
From Stdlib Require Import Structures.OrderedTypeEx.
Import ListNotations.
Open Scope Z_scope.

(** ** Go's [time] package, as far as [main] uses it

    A [time.Time] (its wall reading, monotonic reading stripped) is the
    number of nanoseconds since Go's zero time, January 1 of year 1,
    00:00:00 UTC; a [time.Duration] is a number of nanoseconds.
    [time.Local] is a [Zone]: its offset from UTC may change over time
    (daylight saving time), as Go's [Location.lookup] reports it
    ([checkLocalTimezone] expects UTC+08 but only warns otherwise). *)
Module Sched.

Definition Nanosecond : Z := 1.
Definition Second : Z := 1000000000 * Nanosecond.
Definition Minute : Z := 60 * Second.
Definition Hour : Z := 60 * Minute.

(** The constants of [emu_log.go]. *)
Definition day : Z := 24 * Hour.
Definition repeatInterval : Z := Hour.
Definition requestDelay : Z := 4 * Second.
Definition startTime : Z := 5 * Hour.
Definition endTime : Z := 24 * Hour.

(** A [*time.Location] as its [lookup] method sees it: the offset (in
    seconds east of UTC) before the first listed instant, and the
    instants (nanoseconds since the zero time, whole seconds) at which a
    new period starts, with the period's offset, in increasing order.
    The periods are the ones Go reports: the zone's transitions, and for
    the years ruled by the zone's TZ string ([tzset]) also the year
    boundaries it uses as period bounds. *)
Record Zone : Type := { first_off : Z; periods : list (Z * Z) }.

Fixpoint lookup_from (off : Z) (start : option Z) (l : list (Z * Z)) (t : Z)
  : Z * option Z * option Z :=
  match l with
  | [] => (off, start, None)
  | (w, o) :: l' => if t <? w then (off, start, Some w) else lookup_from o (Some w) l' t
  end.

(** [l.lookup(t)]: the offset at [t], and the [start] and [end] of the
    period that contains [t] ([None]: unbounded, Go's [alpha], [omega]). *)
Definition lookup (z : Zone) (t : Z) : Z * option Z * option Z :=
  lookup_from (first_off z) None (periods z) t.

Definition offset_at (z : Zone) (t : Z) : Z := fst (fst (lookup z t)).

(** Wall-clock reading of [t] in the local zone (nanoseconds since the
    local zero day), with the offset in force at [t], as [t.Year()],
    [t.Month()], [t.Day()] use it. Day boundaries of the absolute time
    line fall on UTC midnights, as in Go's [absDate]. *)
Definition local_wall (z : Zone) (t : Z) : Z := t + offset_at z t * Second.

(** The local calendar day of [t], as a day count. *)
Definition local_date (z : Zone) (t : Z) : Z := local_wall z t / day.

(** The local time of day of [t]. *)
Definition local_tod (z : Zone) (t : Z) : Z := local_wall z t mod day.

(** Go's test [!(utc < start || utc >= end)]. *)
Definition in_period (t : Z) (start end_ : option Z) : bool :=
  match start with Some s => s <=? t | None => true end &&
  match end_ with Some e => t <? e | None => true end.

(** [time.Date(y, m, d, 0, 0, 0, 0, time.Local)] for the local day
    [date]: Go reads the wall clock as if it were UTC, looks up the
    offset there, and when the corrected instant falls outside the
    period found it looks up the offset again at the corrected instant. *)
Definition Date_midnight (z : Zone) (date : Z) : Z :=
  let unix := date * day in
  let '(off, start, end_) := lookup z unix in
  if off =? 0 then unix
  else
    let utc := unix - off * Second in
    if in_period utc start end_ then utc
    else unix - offset_at z utc * Second.

(** [time.Date(now.Year(), now.Month(), now.Day(), 0, 0, 0, 0, time.Local)]. *)
Definition today_of (z : Zone) (now : Z) : Z := Date_midnight z (local_date z now).

(** [t.Add(d)], [t.Before(u)], [t.After(u)]. *)
Definition Add (t d : Z) : Z := t + d.
Definition Before (t u : Z) : bool := t <? u.
Definition After (t u : Z) : bool := u <? t.

(** [t.Truncate(d)]: rounds [t] down to a multiple of [d] since the zero
    time; it works on the absolute time, not on the local presentation. *)
Definition Truncate (t d : Z) : Z :=
  if d <=? 0 then t else t - t mod d.

(** Lines 125-136 of [main]: the computation of [nextRun] from [now]. *)
Definition next_run (z : Zone) (now : Z) : Z :=
  let today := today_of z now in
  if Before now (Add today startTime) then Add today startTime
  else if After now (Add today endTime) then Add today day
  else Add (Truncate now repeatInterval) repeatInterval.

(** One turn of [main]'s loop (lines 125-139): [nextRun] is computed
    from [now], the round [iterBureaus()] takes [d], and
    [time.Sleep(time.Until(nextRun))] returns at [nextRun], or at once
    when [nextRun] has already passed. The next [time.Now()] is taken to
    be the wake-up instant. *)
Definition loop_step (z : Zone) (now d : Z) : Z := Z.max (next_run z now) (now + d).

(** The instants at which successive turns of the loop start, given the
    durations of the rounds. *)
Fixpoint wake_times (z : Zone) (now : Z) (ds : list Z) : list Z :=
  match ds with
  | [] => []
  | d :: ds' => let n := loop_step z now d in n :: wake_times z n ds'
  end.

(** The offset of [z] is [o] at every instant of [[a, b]]. *)
Definition steady_on (z : Zone) (a b o : Z) : Prop :=
  forall t, a <= t <= b -> offset_at z t = o.

(** [z] keeps the offset it has at [now] for two days either side of
    [now] (no transition near [now]), and that offset is at most a day. *)
Definition steady (z : Zone) (now : Z) : Prop :=
  steady_on z (now - 2 * day) (now + 2 * day) (offset_at z now) /\
  -86400 <= offset_at z now <= 86400.

(** A zone with one offset at all times. *)
Definition fixed (off : Z) : Zone := {| first_off := off; periods := [] |}.

(** An instant at a given local date and time of day in a zone of fixed
    offset [off]. *)
Definition at_local (off date tod : Z) : Z := date * day + tod - off * Second.

(** The expected zone, UTC+08 (Asia/Shanghai has had no transition
    since 1991). *)
Definition cst : Z := 8 * 3600.
Definition beijing : Zone := fixed cst.

(** A zone half an hour off the whole hours, UTC+05:30. *)
Definition ist : Z := 5 * 3600 + 30 * 60.
Definition utc0530 : Zone := fixed ist.

(** The instant of a Unix time in seconds. *)
Definition unix (u : Z) : Z := (u + 62135596800) * Second.

(** America/New_York in 2024, with the periods Go's [lookup] reports
    for it (TZ string EST5EDT,M3.2.0,M11.1.0): EST (UTC-05) from
    2024-01-01 00:00 UTC, EDT (UTC-04) from 2024-03-10 07:00 UTC, EST
    from 2024-11-03 06:00 UTC to [tzset]'s year end 365 days after the
    year start, 2024-12-31 00:00 UTC. *)
Definition est : Z := -5 * 3600.
Definition edt : Z := -4 * 3600.
Definition new_york : Zone :=
  {| first_off := est;
     periods := [(unix 1704067200, est); (unix 1710054000, edt);
                 (unix 1730613600, est); (unix 1735603200, est)] |}.

(** Instants on local day 739000 (in 2024): 00:30 and 01:00 at UTC+08,
    10:10 at UTC+05:30. *)
Definition now_0030 : Z := at_local cst 739000 (30 * Minute).
Definition now_0100 : Z := at_local cst 739000 Hour.
Definition now_1010 : Z := at_local ist 739000 (10 * Hour + 10 * Minute).

(** New York, 2024-03-10 03:00 EDT (07:00 UTC), the first hour after
    the change to daylight saving time. *)
Definition ny_0300_edt : Z := unix 1710054000.

(** New York, 2024-11-03 23:00 EST and 24:00 EST (2024-11-04 04:00 and
    05:00 UTC), on the day the clocks go back. *)
Definition ny_2300_est : Z := unix 1730692800.
Definition ny_2400_est : Z := unix 1730696400.

(** *** Arithmetic facts about the local clock *)

Lemma day_pos : 0 < day.
Proof. unfold day, Hour, Minute, Second, Nanosecond. lia. Qed.

Lemma Hour_pos : 0 < Hour.
Proof. unfold Hour, Minute, Second, Nanosecond. lia. Qed.

Lemma local_tod_bounds (z : Zone) (t : Z) : 0 <= local_tod z t < day.
Proof. unfold local_tod. apply Z.mod_pos_bound. exact day_pos. Qed.

Lemma local_wall_split (z : Zone) (t : Z) :
  t + offset_at z t * Second = local_date z t * day + local_tod z t.
Proof.
  unfold local_date, local_tod. fold (local_wall z t).
  pose proof (Z.div_mod (local_wall z t) day ltac:(pose proof day_pos; lia)). lia.
Qed.

Lemma offset_at_fixed (off t : Z) : offset_at (fixed off) t = off.
Proof. reflexivity. Qed.

(** Every fixed zone of offset at most a day is steady. *)
Lemma steady_fixed (off now : Z) : -86400 <= off <= 86400 -> steady (fixed off) now.
Proof. intros H. split; [intros t _; reflexivity | exact H]. Qed.

Lemma steady_of_on (z : Zone) (a b o now : Z) :
  steady_on z a b o -> -86400 <= o <= 86400 ->
  a <= now - 2 * day -> now + 2 * day <= b -> steady z now.
Proof.
  intros Hs Hb Ha Hb'. pose proof day_pos.
  assert (Ho : offset_at z now = o) by (apply Hs; lia).
  unfold steady. rewrite Ho. split; [intros t Ht; apply Hs; lia | exact Hb].
Qed.

Lemma steady_near (z : Zone) (now t : Z) :
  steady z now -> now - 2 * day <= t <= now + 2 * day -> offset_at z t = offset_at z now.
Proof. intros [Hs _] Ht. apply Hs. exact Ht. Qed.

(** Away from transitions, local midnight is [now] minus the local time
    of day. *)
Lemma today_of_tod (z : Zone) (now : Z) :
  steady z now -> today_of z now = now - local_tod z now.
Proof.
  intros Hs. pose proof Hs as [Hst Hb].
  pose proof (local_wall_split z now) as Hw. pose proof (local_tod_bounds z now) as Ht.
  set (o := offset_at z now) in *.
  assert (Hob : -day <= o * Second <= day)
    by (unfold day, Hour, Minute, Second, Nanosecond; lia).
  unfold today_of, Date_midnight.
  set (u := local_date z now * day) in *.
  assert (Hu : offset_at z u = o) by (apply Hst; lia).
  destruct (lookup z u) as [[off st] en] eqn:L.
  assert (Ho : off = o) by (rewrite <- Hu; unfold offset_at; rewrite L; reflexivity).
  subst off. cbv beta iota zeta.
  destruct (o =? 0) eqn:E0.
  - apply Z.eqb_eq in E0. rewrite E0 in Hw. lia.
  - destruct (in_period (u - o * Second) st en); [lia |].
    rewrite (Hst (u - o * Second)) by lia. lia.
Qed.

(** Adding [x] to an instant adds [x] to its wall reading when the
    offset stays the same. *)
Lemma local_wall_add (z : Zone) (now x : Z) :
  offset_at z (now + x) = offset_at z now -> local_wall z (now + x) = local_wall z now + x.
Proof. intros H. unfold local_wall. rewrite H. lia. Qed.

Lemma local_tod_add (z : Zone) (now x : Z) :
  offset_at z (now + x) = offset_at z now ->
  local_tod z (now + x) = (local_tod z now + x) mod day.
Proof.
  intros H. unfold local_tod. rewrite (local_wall_add z now x H).
  rewrite Z.add_mod_idemp_l by (pose proof day_pos; lia). reflexivity.
Qed.

Lemma local_date_today_plus (z : Zone) (now x : Z) :
  steady z now -> 0 <= x < day -> local_date z (today_of z now + x) = local_date z now.
Proof.
  intros Hs Hx. rewrite (today_of_tod z now Hs).
  pose proof (local_tod_bounds z now) as Ht.
  replace (now - local_tod z now + x) with (now + (x - local_tod z now)) by lia.
  unfold local_date at 1. rewrite local_wall_add by (apply (steady_near z now); [exact Hs | lia]).
  pose proof (local_wall_split z now) as Hw. unfold local_wall. rewrite Hw.
  replace (local_date z now * day + local_tod z now + (x - local_tod z now))
    with (x + local_date z now * day) by lia.
  rewrite Z.div_add by (pose proof day_pos; lia).
  rewrite (Z.div_small x day Hx). reflexivity.
Qed.

Lemma Before_today_start (z : Zone) (now : Z) :
  steady z now ->
  Before now (Add (today_of z now) startTime) = (local_tod z now <? startTime).
Proof.
  intros Hs. unfold Before, Add. rewrite (today_of_tod z now Hs).
  destruct (local_tod z now <? startTime) eqn:E;
    [apply Z.ltb_lt; apply Z.ltb_lt in E | apply Z.ltb_ge; apply Z.ltb_ge in E]; lia.
Qed.

(** Away from transitions the test [now.After(today.Add(endTime))] never
    succeeds: the window end is the next local midnight. *)
Lemma After_today_end_false (z : Zone) (now : Z) :
  steady z now -> After now (Add (today_of z now) endTime) = false.
Proof.
  intros Hs. unfold After, Add. rewrite (today_of_tod z now Hs). apply Z.ltb_ge.
  pose proof (local_tod_bounds z now). unfold endTime, day in *. lia.
Qed.

(** When the offset at [now] is a whole number of hours, [Truncate] to
    the hour agrees with rounding the local time of day down to the
    hour. *)
Lemma mod_hour_whole_hour_zone (z : Zone) (now : Z) :
  offset_at z now mod 3600 = 0 -> now mod Hour = local_tod z now mod Hour.
Proof.
  intros H. unfold local_tod, local_wall. revert H. generalize (offset_at z now). intros off H.
  unfold day, Hour, Minute, Second, Nanosecond.
  pose proof (Z.div_mod off 3600 ltac:(lia)).
  pose proof (Z.div_mod now (60 * (60 * (1000000000 * 1))) ltac:(lia)).
  pose proof (Z.mod_pos_bound now (60 * (60 * (1000000000 * 1))) ltac:(lia)).
  set (w := now + off * (1000000000 * 1)).
  pose proof (Z.div_mod w (24 * (60 * (60 * (1000000000 * 1)))) ltac:(lia)).
  pose proof (Z.mod_pos_bound w (24 * (60 * (60 * (1000000000 * 1)))) ltac:(lia)).
  set (t := w mod (24 * (60 * (60 * (1000000000 * 1))))) in *.
  pose proof (Z.div_mod t (60 * (60 * (1000000000 * 1))) ltac:(lia)).
  pose proof (Z.mod_pos_bound t (60 * (60 * (1000000000 * 1))) ltac:(lia)).
  set (a := now mod (60 * (60 * (1000000000 * 1)))) in *.
  set (b := t mod (60 * (60 * (1000000000 * 1)))) in *.
  set (q1 := now / (60 * (60 * (1000000000 * 1)))) in *.
  set (q2 := w / (24 * (60 * (60 * (1000000000 * 1))))) in *.
  set (q3 := t / (60 * (60 * (1000000000 * 1)))) in *.
  set (k := off / 3600) in *.
  subst w. lia.
Qed.

(** [nextRun] in terms of the local time of day, away from transitions:
    window start today before 05:00, the next whole hour of the absolute
    time otherwise. *)
Lemma next_run_cases (z : Zone) (now : Z) :
  steady z now ->
  next_run z now =
    (if local_tod z now <? startTime then now - local_tod z now + startTime
     else now - now mod Hour + Hour).
Proof.
  intros Hs.
  unfold next_run. rewrite (Before_today_start z now Hs), (After_today_end_false z now Hs).
  destruct (local_tod z now <? startTime).
  - unfold Add. rewrite (today_of_tod z now Hs). lia.
  - unfold Add, Truncate, repeatInterval.
    destruct (Hour <=? 0) eqn:E; [apply Z.leb_le in E; pose proof Hour_pos; lia |].
    reflexivity.
Qed.

(** Every instant of the last hour of New York's 2024-11-03 (EST) is
    read on that local day, whose midnight (EDT) is 25 hours before the
    next one. *)
Lemma new_york_fall_back_hour (now : Z) :
  ny_2300_est < now < ny_2400_est ->
  offset_at new_york now = est /\ local_date new_york now = 739192 /\
  today_of new_york now = unix 1730606400.
Proof.
  intros [H1 H2]. unfold ny_2300_est, ny_2400_est, unix, Second, Nanosecond in *.
  assert (Ho : offset_at new_york now = est).
  { unfold offset_at, lookup, new_york, unix, Second, Nanosecond. cbn [first_off periods].
    unfold lookup_from.
    rewrite (proj2 (Z.ltb_ge now _)) by lia.
    rewrite (proj2 (Z.ltb_ge now _)) by lia.
    rewrite (proj2 (Z.ltb_ge now _)) by lia.
    rewrite (proj2 (Z.ltb_lt now _)) by lia.
    reflexivity. }
  split; [exact Ho |].
  assert (Hd : local_date new_york now = 739192).
  { unfold local_date, local_wall. rewrite Ho.
    symmetry. apply (Z.div_unique_pos _ _ _ (now + est * Second - 739192 * day)).
    - unfold est, day, Hour, Minute, Second, Nanosecond. lia.
    - lia. }
  split; [exact Hd |].
  unfold today_of. rewrite Hd. vm_compute. reflexivity.
Qed.

(** *** The three branches of [nextRun] *)

(** C2 (amended): in a zone whose offset does not change within two
    days of [now] (every fixed-offset zone, such as the expected UTC+08),
    the after-window-end branch of [main] never fires, so [nextRun] is
    today's window start before 05:00 and [now] truncated to the hour
    plus one hour otherwise. *)
Theorem after_end_branch_dead (z : Zone) (now : Z) (Hs : steady z now) :
  After now (Add (today_of z now) endTime) = false /\
  next_run z now =
    (if local_tod z now <? startTime then today_of z now + startTime
     else Truncate now repeatInterval + repeatInterval).
Proof.
  split; [apply (After_today_end_false z now Hs) |].
  unfold next_run. rewrite (Before_today_start z now Hs), (After_today_end_false z now Hs).
  reflexivity.
Qed.

Lemma after_end_branch_dead_witness :
  steady beijing now_0030 /\
  After now_0030 (Add (today_of beijing now_0030) endTime) = false /\
  next_run beijing now_0030 =
    (if local_tod beijing now_0030 <? startTime then today_of beijing now_0030 + startTime
     else Truncate now_0030 repeatInterval + repeatInterval).
Proof.
  assert (H : steady beijing now_0030) by (apply steady_fixed; unfold cst; lia).
  split; [exact H | apply (after_end_branch_dead beijing now_0030 H)].
Defined.

(** C2 (counterexample): at 00:30 local time (UTC+08), which is strictly
    after the window end 24:00 of the previous day and is the first period
    after a window end, the next run is 05:00 of the same calendar day, not
    05:00 of the following day; the code's own test for being after the
    window end is false there. *)
Lemma after_window_end_not_tomorrow :
  today_of beijing now_0030 - day + endTime < now_0030 /\
  After now_0030 (Add (today_of beijing now_0030) endTime) = false /\
  next_run beijing now_0030 <> today_of beijing now_0030 + day + startTime.
Proof. vm_compute. repeat split; congruence. Qed.

(** C3 (counterexample): at 01:00 local time (UTC+08) the next run is not
    05:00 of the next day. *)
Lemma next_run_0100_not_next_day :
  next_run beijing now_0100 <> today_of beijing now_0100 + day + startTime /\
  local_date beijing (next_run beijing now_0100) <> local_date beijing now_0100 + 1.
Proof. vm_compute. split; congruence. Qed.

(** C3 (amended): in a zone whose offset does not change within two
    days of [now], at 01:00 local time the next run is 05:00 of the same
    calendar day, four hours later. *)
Theorem next_run_0100_same_day (z : Zone) (now : Z) (Hs : steady z now)
  (H : local_tod z now = Hour) :
  next_run z now = now + 4 * Hour /\
  local_date z (next_run z now) = local_date z now.
Proof.
  assert (Hb : (Hour <? startTime) = true) by reflexivity.
  unfold next_run. rewrite (Before_today_start z now Hs), H, Hb.
  unfold Add. split.
  - rewrite (today_of_tod z now Hs), H. unfold startTime. lia.
  - apply (local_date_today_plus z now startTime Hs).
    unfold startTime, day, Hour, Minute, Second, Nanosecond. lia.
Qed.

Lemma next_run_0100_same_day_witness :
  steady beijing now_0100 /\
  local_tod beijing now_0100 = Hour /\
  next_run beijing now_0100 = now_0100 + 4 * Hour /\
  local_date beijing (next_run beijing now_0100) = local_date beijing now_0100.
Proof.
  assert (Hs : steady beijing now_0100) by (apply steady_fixed; unfold cst; lia).
  assert (H : local_tod beijing now_0100 = Hour) by (vm_compute; reflexivity).
  split; [exact Hs | split; [exact H | apply (next_run_0100_same_day beijing _ Hs H)]].
Defined.

(** C8 (counterexample): in New York on 2024-03-10, at 03:00 EDT, before
    the window start, the next run is 06:00 EDT of the same day, three
    hours later, not 05:00: today's midnight was in EST, and five hours
    after it the clocks had moved forward one hour. *)
Lemma next_run_dst_spring_forward :
  local_tod new_york ny_0300_edt = 3 * Hour /\
  local_tod new_york (next_run new_york ny_0300_edt) = 6 * Hour /\
  local_date new_york (next_run new_york ny_0300_edt) = local_date new_york ny_0300_edt /\
  next_run new_york ny_0300_edt - ny_0300_edt = 3 * Hour.
Proof. vm_compute. repeat split. Qed.

(** C8 (amended): in a zone whose offset does not change within two
    days of [now], before the window start (05:00) the next run is 05:00
    of the same local day; at 03:00 it is two hours later. *)
Theorem next_run_before_window (z : Zone) (now : Z) (Hst : steady z now)
  (H : local_tod z now < startTime) :
  next_run z now = today_of z now + startTime /\
  local_date z (next_run z now) = local_date z now /\
  local_tod z (next_run z now) = startTime /\
  next_run z now - now = startTime - local_tod z now.
Proof.
  assert (Hb : (local_tod z now <? startTime) = true) by (apply Z.ltb_lt; exact H).
  assert (Hn : next_run z now = today_of z now + startTime).
  { unfold next_run. rewrite (Before_today_start z now Hst), Hb. reflexivity. }
  assert (Hs : 0 <= startTime < day) by (unfold startTime, day, Hour, Minute, Second, Nanosecond; lia).
  pose proof (local_tod_bounds z now) as Ht.
  rewrite Hn. split; [reflexivity | split; [| split]].
  - apply (local_date_today_plus z now startTime Hst Hs).
  - rewrite (today_of_tod z now Hst).
    replace (now - local_tod z now + startTime) with (now + (startTime - local_tod z now)) by lia.
    rewrite local_tod_add by (apply (steady_near z now); [exact Hst | lia]).
    replace (local_tod z now + (startTime - local_tod z now)) with startTime by lia.
    apply Z.mod_small. exact Hs.
  - rewrite (today_of_tod z now Hst). lia.
Qed.

Lemma next_run_before_window_at_0300 :
  steady beijing (at_local cst 739000 (3 * Hour)) /\
  local_tod beijing (at_local cst 739000 (3 * Hour)) < startTime /\
  next_run beijing (at_local cst 739000 (3 * Hour))
    = today_of beijing (at_local cst 739000 (3 * Hour)) + startTime /\
  local_date beijing (next_run beijing (at_local cst 739000 (3 * Hour)))
    = local_date beijing (at_local cst 739000 (3 * Hour)) /\
  local_tod beijing (next_run beijing (at_local cst 739000 (3 * Hour))) = startTime /\
  next_run beijing (at_local cst 739000 (3 * Hour)) - at_local cst 739000 (3 * Hour)
    = startTime - local_tod beijing (at_local cst 739000 (3 * Hour)).
Proof.
  assert (Hs : steady beijing (at_local cst 739000 (3 * Hour)))
    by (apply steady_fixed; unfold cst; lia).
  assert (H : local_tod beijing (at_local cst 739000 (3 * Hour)) < startTime)
    by (vm_compute; reflexivity).
  split; [exact Hs | split; [exact H | apply (next_run_before_window beijing _ Hs H)]].
Defined.

(** C7 (counterexample): in a UTC+05:30 zone, at 10:10 local time the
    next run is 10:30 local time, twenty minutes later, not 11:00:
    [Truncate] rounds to the UTC hour. *)
Lemma next_run_half_hour_zone :
  next_run utc0530 now_1010 <> now_1010 - local_tod utc0530 now_1010 mod Hour + Hour /\
  local_tod utc0530 (next_run utc0530 now_1010) = 10 * Hour + 30 * Minute.
Proof. vm_compute. split; [congruence | reflexivity]. Qed.

(** C7 (amended): in a zone whose offset does not change within two
    days of [now] and is a whole number of hours (such as the expected
    UTC+08), for [now] in the window [05:00, 24:00) the next run is
    [now] rounded down to the local whole hour plus one hour. *)
Theorem next_run_in_window_whole_hour_zone (z : Zone) (now : Z) (Hst : steady z now)
  (Hoff : offset_at z now mod 3600 = 0)
  (Hs : startTime <= local_tod z now) (He : local_tod z now < endTime) :
  next_run z now = now - local_tod z now mod Hour + Hour /\
  local_wall z (next_run z now) mod Hour = 0 /\
  now < next_run z now <= now + Hour.
Proof.
  assert (Hb : (local_tod z now <? startTime) = false) by (apply Z.ltb_ge; exact Hs).
  assert (Hm := mod_hour_whole_hour_zone z now Hoff).
  assert (Hn : next_run z now = now - local_tod z now mod Hour + Hour).
  { rewrite (next_run_cases z now Hst), Hb, Hm. reflexivity. }
  rewrite Hn. rewrite <- Hm.
  pose proof Hour_pos as HP.
  pose proof (Z.mod_pos_bound now Hour HP).
  split; [reflexivity | split; [| lia]].
  unfold local_wall.
  rewrite (steady_near z now (now - now mod Hour + Hour) Hst) by (unfold day; lia).
  pose proof (Z.div_mod now Hour ltac:(lia)).
  pose proof (Z.div_mod (offset_at z now) 3600 ltac:(lia)).
  set (o := offset_at z now) in *.
  set (q := now / Hour) in *. set (r := now mod Hour) in *. set (k := o / 3600) in *.
  replace (now - r + Hour + o * Second) with ((q + 1 + k) * Hour)
    by (unfold Hour, Minute, Second, Nanosecond in *; lia).
  apply Z.mod_mul. lia.
Qed.

Lemma next_run_in_window_whole_hour_zone_witness :
  steady beijing (at_local cst 739000 (23 * Hour + 30 * Minute)) /\
  offset_at beijing (at_local cst 739000 (23 * Hour + 30 * Minute)) mod 3600 = 0 /\
  startTime <= local_tod beijing (at_local cst 739000 (23 * Hour + 30 * Minute)) /\
  local_tod beijing (at_local cst 739000 (23 * Hour + 30 * Minute)) < endTime /\
  next_run beijing (at_local cst 739000 (23 * Hour + 30 * Minute))
    = at_local cst 739000 (23 * Hour + 30 * Minute)
      - local_tod beijing (at_local cst 739000 (23 * Hour + 30 * Minute)) mod Hour + Hour.
Proof.
  assert (H0 : steady beijing (at_local cst 739000 (23 * Hour + 30 * Minute)))
    by (apply steady_fixed; unfold cst; lia).
  assert (H1 : offset_at beijing (at_local cst 739000 (23 * Hour + 30 * Minute)) mod 3600 = 0)
    by reflexivity.
  assert (H2 : startTime <= local_tod beijing (at_local cst 739000 (23 * Hour + 30 * Minute)))
    by (vm_compute; discriminate).
  assert (H3 : local_tod beijing (at_local cst 739000 (23 * Hour + 30 * Minute)) < endTime)
    by (vm_compute; reflexivity).
  split; [exact H0 | split; [exact H1 | split; [exact H2 | split; [exact H3 |]]]].
  apply (next_run_in_window_whole_hour_zone beijing _ H0 H1 H2 H3).
Defined.

(** *** Further properties of the scheduler loop *)

(** A turn started on the local hour [h], within the window, whose round
    takes less than an hour, is followed by a turn one hour later. *)
Lemma loop_step_in_window (z : Zone) (now d h : Z) :
  steady z now -> offset_at z now mod 3600 = 0 -> local_tod z now = h * Hour ->
  5 <= h <= 23 -> 0 <= d < Hour ->
  loop_step z now d = now + Hour.
Proof.
  intros Hst Hoff Ht Hh Hd. unfold loop_step. rewrite (next_run_cases z now Hst).
  assert (Hb : (local_tod z now <? startTime) = false).
  { apply Z.ltb_ge. rewrite Ht. unfold startTime, Hour, Minute, Second, Nanosecond. lia. }
  rewrite Hb, (mod_hour_whole_hour_zone z now Hoff), Ht, Z.mod_mul
    by (pose proof Hour_pos; lia).
  lia.
Qed.

(** A turn started at local midnight whose round takes less than five
    hours is followed by a turn at 05:00. *)
Lemma loop_step_midnight (z : Zone) (now d : Z) :
  steady z now -> local_tod z now = 0 -> 0 <= d < startTime ->
  loop_step z now d = now + startTime.
Proof.
  intros Hst Ht Hd. unfold loop_step. rewrite (next_run_cases z now Hst), Ht.
  assert (Hb : (0 <? startTime) = true) by reflexivity.
  rewrite Hb. lia.
Qed.

Lemma wake_times_from (z : Zone) (a b o : Z) (Hs : steady_on z a b o)
  (Hb : -86400 <= o <= 86400) (Hoff : o mod 3600 = 0) (k : nat) :
  forall now ds, (k <= 18)%nat -> a <= now - 2 * day ->
  now + (Z.of_nat k + 1) * Hour + 2 * day <= b ->
  local_tod z now = (23 - Z.of_nat k) * Hour ->
  List.length ds = (k + 2)%nat -> Forall (fun d => 0 <= d < Hour) ds ->
  wake_times z now ds =
    map (fun i => now + Z.of_nat i * Hour) (seq 1 (S k))
      ++ [now + (Z.of_nat k + 1) * Hour + startTime].
Proof.
  pose proof Hour_pos as HP. pose proof day_pos as DP.
  induction k as [| k IH]; intros now ds Hk Ha Hb' Ht Hl Hd.
  - assert (Hst : steady z now) by (apply (steady_of_on z a b o); try lia; exact Hs).
    assert (Hst1 : steady z (now + Hour)) by (apply (steady_of_on z a b o); try lia; exact Hs).
    assert (Ho : offset_at z now = o) by (apply Hs; lia).
    assert (Ho1 : offset_at z (now + Hour) = o) by (apply Hs; lia).
    destruct ds as [| d1 [| d2 [|]]]; try discriminate.
    inversion Hd as [| ? ? Hd1 Hd']; subst. inversion Hd' as [| ? ? Hd2 _]; subst.
    cbn [wake_times].
    rewrite (loop_step_in_window z now d1 23 Hst) by (try rewrite Ho; try rewrite Ht; simpl; lia).
    assert (Hm : local_tod z (now + Hour) = 0).
    { rewrite local_tod_add by congruence. rewrite Ht. simpl.
      unfold day, Hour, Minute, Second, Nanosecond. reflexivity. }
    rewrite (loop_step_midnight z (now + Hour) d2 Hst1 Hm)
      by (unfold startTime in *; lia).
    cbn [map seq app]. f_equal.
  - assert (Hst : steady z now) by (apply (steady_of_on z a b o); try lia; exact Hs).
    assert (Ho : offset_at z now = o) by (apply Hs; lia).
    assert (Ho1 : offset_at z (now + Hour) = o) by (apply Hs; lia).
    destruct ds as [| d ds]; try discriminate.
    inversion Hd as [| ? ? Hd1 Hd']; subst.
    cbn [wake_times].
    rewrite (loop_step_in_window z now d (23 - Z.of_nat (S k)) Hst)
      by (try rewrite Ho; try exact Hoff; try exact Ht; try lia; exact Hd1).
    assert (Hn : local_tod z (now + Hour) = (23 - Z.of_nat k) * Hour).
    { rewrite local_tod_add by congruence. rewrite Ht, Nat2Z.inj_succ.
      rewrite Z.mod_small by (unfold day, Hour, Minute, Second, Nanosecond; lia).
      unfold Hour, Minute, Second, Nanosecond. lia. }
    rewrite (IH (now + Hour) ds ltac:(lia) ltac:(lia) ltac:(lia) Hn
               ltac:(simpl in Hl; lia) Hd').
    replace (seq 1 (S (S k))) with (1%nat :: map S (seq 1 (S k)))
      by (rewrite seq_shift; reflexivity).
    cbn [map app]. rewrite map_map.
    f_equal. f_equal.
    + apply map_ext. intros i. rewrite Nat2Z.inj_succ.
      unfold Hour, Minute, Second, Nanosecond. lia.
    + rewrite Nat2Z.inj_succ. unfold Hour, Minute, Second, Nanosecond. do 2 f_equal. lia.
Qed.

(** In a zone whose offset does not change within two days of [now] and
    is a whole number of hours, the next run is on a local whole hour,
    and never strictly between 00:00 and 05:00: it is midnight or within
    [05:00, 23:00]. *)
Theorem next_run_on_the_hour (z : Zone) (now : Z) (Hst : steady z now)
  (Hoff : offset_at z now mod 3600 = 0) :
  local_tod z (next_run z now) mod Hour = 0 /\
  (local_tod z (next_run z now) = 0 \/ startTime <= local_tod z (next_run z now)).
Proof.
  pose proof Hour_pos as HP.
  pose proof (local_tod_bounds z now) as Hb.
  rewrite (next_run_cases z now Hst).
  destruct (local_tod z now <? startTime) eqn:E.
  - replace (now - local_tod z now + startTime) with (now + (startTime - local_tod z now)) by lia.
    rewrite local_tod_add
      by (apply (steady_near z now); [exact Hst | unfold startTime, day in *; lia]).
    replace (local_tod z now + (startTime - local_tod z now)) with startTime by lia.
    assert (Hs : startTime mod day = startTime) by reflexivity.
    rewrite Hs. split; [reflexivity | right; lia].
  - apply Z.ltb_ge in E.
    rewrite (mod_hour_whole_hour_zone z now Hoff).
    replace (now - local_tod z now mod Hour + Hour)
      with (now + (Hour - local_tod z now mod Hour)) by lia.
    pose proof (Z.mod_pos_bound (local_tod z now) Hour HP) as Hr.
    rewrite local_tod_add
      by (apply (steady_near z now); [exact Hst | unfold day in *; lia]).
    pose proof (Z.div_mod (local_tod z now) Hour ltac:(lia)) as Hdm.
    set (t := local_tod z now) in *.
    set (a := t / Hour) in *. set (b := t mod Hour) in *.
    assert (Ha : 5 <= a <= 23)
      by (unfold startTime, day, Hour, Minute, Second, Nanosecond in *; lia).
    replace (t + (Hour - b)) with ((a + 1) * Hour) by lia.
    destruct (Z.eq_dec a 23) as [E23 | N23].
    + rewrite E23. assert (Hz : (23 + 1) * Hour mod day = 0) by reflexivity.
      rewrite Hz. split; [reflexivity | left; reflexivity].
    + rewrite (Z.mod_small ((a + 1) * Hour) day)
        by (unfold day, Hour, Minute, Second, Nanosecond in *; lia).
      rewrite Z.mod_mul by lia.
      split; [reflexivity | right; unfold startTime; apply Z.mul_le_mono_nonneg_r; lia].
Qed.

Lemma next_run_on_the_hour_witness :
  steady beijing now_0030 /\
  offset_at beijing now_0030 mod 3600 = 0 /\
  local_tod beijing (next_run beijing now_0030) mod Hour = 0 /\
  (local_tod beijing (next_run beijing now_0030) = 0 \/
   startTime <= local_tod beijing (next_run beijing now_0030)).
Proof.
  assert (Hs : steady beijing now_0030) by (apply steady_fixed; unfold cst; lia).
  assert (H : offset_at beijing now_0030 mod 3600 = 0) by reflexivity.
  split; [exact Hs | split; [exact H | apply (next_run_on_the_hour beijing now_0030 Hs H)]].
Defined.

(** In a zone whose offset does not change within two days of [now],
    the next run is strictly after [now] and at most five hours
    ([startTime]) after it, so [main] sleeps a positive time of at most
    five hours. *)
Theorem next_run_ahead (z : Zone) (now : Z) (Hst : steady z now) :
  now < next_run z now <= now + startTime.
Proof.
  pose proof Hour_pos. pose proof (local_tod_bounds z now).
  pose proof (Z.mod_pos_bound now Hour ltac:(lia)).
  rewrite (next_run_cases z now Hst).
  destruct (local_tod z now <? startTime) eqn:E;
    [apply Z.ltb_lt in E | apply Z.ltb_ge in E]; unfold startTime in *; lia.
Qed.

Lemma next_run_ahead_witness :
  steady beijing now_1010 /\ now_1010 < next_run beijing now_1010 <= now_1010 + startTime.
Proof.
  assert (Hs : steady beijing now_1010) by (apply steady_fixed; unfold cst; lia).
  split; [exact Hs | apply (next_run_ahead beijing now_1010 Hs)].
Defined.

(** On New York's 2024-11-03, the day the clocks go back, local midnight
    is 00:00 EDT and [today.Add(endTime)] is 23:00 EST. For every [now]
    strictly between 23:00 and 24:00 EST the after-window-end branch
    fires and [nextRun] is 23:00 EST, in the past: each turn of the loop
    in that hour starts the next round as soon as the current one ends. *)
Theorem fall_back_last_hour (now : Z) (H : ny_2300_est < now < ny_2400_est) :
  local_date new_york now = local_date new_york ny_2300_est /\
  local_tod new_york ny_2300_est = 23 * Hour /\
  After now (Add (today_of new_york now) endTime) = true /\
  next_run new_york now = ny_2300_est /\
  next_run new_york now < now /\
  (forall d, 0 <= d -> loop_step new_york now d = now + d).
Proof.
  destruct (new_york_fall_back_hour now H) as [_ [Hd Ht]].
  assert (B1 : (now <? unix 1730606400 + startTime) = false).
  { apply Z.ltb_ge. unfold ny_2300_est, ny_2400_est, unix, startTime, Hour, Minute, Second,
      Nanosecond in *. lia. }
  assert (B2 : (unix 1730606400 + endTime <? now) = true).
  { apply Z.ltb_lt. unfold ny_2300_est, ny_2400_est, unix, endTime, Hour, Minute, Second,
      Nanosecond in *. lia. }
  assert (Hn : next_run new_york now = ny_2300_est).
  { unfold next_run, Before, After, Add. rewrite Ht, B1, B2. vm_compute. reflexivity. }
  split; [rewrite Hd; vm_compute; reflexivity |].
  split; [vm_compute; reflexivity |].
  split; [unfold After, Add; rewrite Ht; exact B2 |].
  split; [exact Hn |].
  split; [rewrite Hn; apply H |].
  intros d Hd0. unfold loop_step. rewrite Hn. lia.
Qed.

Lemma fall_back_last_hour_at_2330 :
  ny_2300_est < unix 1730694600 < ny_2400_est /\
  next_run new_york (unix 1730694600) = ny_2300_est /\
  next_run new_york (unix 1730694600) < unix 1730694600.
Proof.
  assert (H : ny_2300_est < unix 1730694600 < ny_2400_est)
    by (unfold ny_2300_est, ny_2400_est, unix, Second, Nanosecond; lia).
  destruct (fall_back_last_hour (unix 1730694600) H) as [_ [_ [_ [Hn [Hp _]]]]].
  split; [exact H | split; [exact Hn | exact Hp]].
Defined.

(** Starting at 05:00 in a zone whose offset is a whole number of hours
    and does not change from two days before to three days after, if
    every round of [iterBureaus] takes less than an hour, the next twenty
    turns of [main]'s loop start one hour apart through 06:00, ...,
    23:00 and midnight, and then at 05:00 of the next day, exactly one
    day later: twenty rounds a day, one of them at midnight. *)
Theorem daily_schedule (z : Zone) (now : Z) (ds : list Z)
  (Hst : steady_on z (now - 2 * day) (now + 3 * day) (offset_at z now))
  (Hb : -86400 <= offset_at z now <= 86400)
  (Hoff : offset_at z now mod 3600 = 0)
  (H5 : local_tod z now = startTime) (Hlen : List.length ds = 20%nat)
  (Hd : Forall (fun d => 0 <= d < Hour) ds) :
  wake_times z now ds = map (fun i => now + Z.of_nat i * Hour) (seq 1 19) ++ [now + day] /\
  map (local_tod z) (wake_times z now ds) =
    map (fun h => h * Hour) [6;7;8;9;10;11;12;13;14;15;16;17;18;19;20;21;22;23;0;5].
Proof.
  pose proof Hour_pos as HP.
  assert (Hw : wake_times z now ds =
                 map (fun i => now + Z.of_nat i * Hour) (seq 1 19) ++ [now + day]).
  { rewrite (wake_times_from z _ _ _ Hst Hb Hoff 18 now ds ltac:(lia) ltac:(lia)
               ltac:(unfold day; simpl; lia) ltac:(rewrite H5; reflexivity) Hlen Hd).
    f_equal. f_equal. unfold startTime, day. simpl. lia. }
  assert (T : forall x, 0 <= x <= day -> local_tod z (now + x) = (startTime + x) mod day).
  { intros x Hx. rewrite local_tod_add by (apply Hst; unfold day in *; lia).
    rewrite H5. reflexivity. }
  split; [exact Hw |].
  rewrite Hw. cbn [seq map app].
  repeat rewrite T by (unfold day, Hour, Minute, Second, Nanosecond; simpl; lia).
  vm_compute. reflexivity.
Qed.

Lemma daily_schedule_witness :
  steady_on beijing (at_local cst 739000 startTime - 2 * day)
    (at_local cst 739000 startTime + 3 * day) (offset_at beijing (at_local cst 739000 startTime)) /\
  -86400 <= offset_at beijing (at_local cst 739000 startTime) <= 86400 /\
  offset_at beijing (at_local cst 739000 startTime) mod 3600 = 0 /\
  local_tod beijing (at_local cst 739000 startTime) = startTime /\
  List.length (repeat (30 * Minute) 20) = 20%nat /\
  Forall (fun d => 0 <= d < Hour) (repeat (30 * Minute) 20) /\
  map (local_tod beijing) (wake_times beijing (at_local cst 739000 startTime)
                              (repeat (30 * Minute) 20)) =
    map (fun h => h * Hour) [6;7;8;9;10;11;12;13;14;15;16;17;18;19;20;21;22;23;0;5].
Proof.
  assert (H0 : steady_on beijing (at_local cst 739000 startTime - 2 * day)
    (at_local cst 739000 startTime + 3 * day) (offset_at beijing (at_local cst 739000 startTime)))
    by (intros t _; reflexivity).
  assert (Hb : -86400 <= offset_at beijing (at_local cst 739000 startTime) <= 86400)
    by (vm_compute; split; discriminate).
  assert (H1 : offset_at beijing (at_local cst 739000 startTime) mod 3600 = 0) by reflexivity.
  assert (H2 : local_tod beijing (at_local cst 739000 startTime) = startTime)
    by (vm_compute; reflexivity).
  assert (H3 : List.length (repeat (30 * Minute) 20) = 20%nat) by reflexivity.
  assert (H4 : Forall (fun d => 0 <= d < Hour) (repeat (30 * Minute) 20)).
  { apply Forall_forall. intros x Hx. apply repeat_spec in Hx. subst x.
    split; [apply Z.lt_le_incl |]; apply Z.ltb_lt; reflexivity. }
  split; [exact H0 | split; [exact Hb | split; [exact H1 | split; [exact H2 |
    split; [exact H3 | split; [exact H4 |]]]]]].
  apply (daily_schedule beijing _ _ H0 Hb H1 H2 H3 H4).
Defined.

End Sched.

(** ** The resolvers [Bureau.TrainNo]

    [JsonObject] is Go's [map[string]interface{}] as filled by
    [encoding/json]; its values are the dynamic types that decoder
    produces. Reading a missing key of a map (or of a nil map) yields the
    zero value, the nil interface. The HTTP call and the decoding in
    [Bureau.Info] are the provider's side: their result, the pair
    [(info, err)], is an input of [TrainNo] here. *)
Module Resolver.

Local Set Warnings "-register-all".

Inductive value : Type :=
| VNil
| VBool (b : bool)
| VNumber (n : Z)
| VString (s : string)
| VArray (l : list value)
| VObject (fields : list (string * value)).

Definition JsonObject : Type := list (string * value).

(** Go's [error], [nil] being [None]. *)
Definition error : Type := string.

(** [m[k]] on a [map[string]interface{}]. *)
Fixpoint lookup (m : JsonObject) (k : string) : value :=
  match m with
  | [] => VNil
  | (k', v) :: m' => if String.eqb k k' then v else lookup m' k
  end.

(** A computation of Go code that may panic. *)
Inductive go (A : Type) : Type :=
| Ret (a : A)
| Panic (msg : string).
Arguments Ret {A} a.
Arguments Panic {A} msg.

Definition go_bind {A B : Type} (m : go A) (k : A -> go B) : go B :=
  match m with
  | Ret a => k a
  | Panic msg => Panic msg
  end.

Notation "x <-- m ;; k" := (go_bind m (fun x => k)) (at level 61, m at next level, right associativity).

Definition dynamic_type (v : value) : string :=
  match v with
  | VNil => "nil"
  | VBool _ => "bool"
  | VNumber _ => "float64"
  | VString _ => "string"
  | VArray _ => "[]interface {}"
  | VObject _ => "map[string]interface {}"
  end.

(** The single-valued type assertion [v.(string)]: it panics when the
    dynamic type of [v] is not [string]. *)
Definition assert_string (v : value) : go string :=
  match v with
  | VString s => Ret s
  | _ => Panic ("interface conversion: interface {} is " ++ dynamic_type v ++ ", not string")%string
  end.

(** The result pair of [Bureau.Info]. *)
Definition InfoResult : Type := JsonObject * option error.

(** The named results [(trainNo, date string, err error)] of [TrainNo]. *)
Definition TrainNoResult : Type := string * string * option error.

(** [TrainNo] of bureau "H" (lines 37-45); [nowDate] is
    [time.Now().Format("2006-01-02")]. The named results start as zero
    values. *)
Definition TrainNo_H (Info : string -> InfoResult) (nowDate pqCode : string) : go TrainNoResult :=
  let '(info, err) := Info pqCode in
  match err with
  | None =>
      trainNo <-- assert_string (lookup info "trainName") ;;
      Ret (trainNo, nowDate, None)
  | Some e => Ret (""%string, ""%string, Some e)
  end.

(** [TrainNo] of bureau "P" (lines 68-76). *)
Definition TrainNo_P (Info : string -> InfoResult) (nowDate qrCode : string) : go TrainNoResult :=
  let '(info, err) := Info qrCode in
  match err with
  | None =>
      trainNo <-- assert_string (lookup info "TrainnoId") ;;
      date <-- assert_string (lookup info "TrainnoDate") ;;
      Ret (trainNo, date, None)
  | Some e => Ret (""%string, ""%string, Some e)
  end.

(** The [Bureau] struct; [Info] and the clock are passed to [TrainNo]. *)
Record Bureau : Type := {
  Code : string;
  TrainNo : (string -> InfoResult) -> string -> string -> go TrainNoResult
}.

Definition bureau_H : Bureau := {| Code := "H"; TrainNo := TrainNo_H |}.
Definition bureau_P : Bureau := {| Code := "P"; TrainNo := TrainNo_P |}.
Definition bureaus : list Bureau := [bureau_H; bureau_P].

Definition is_panic {A : Type} (m : go A) : bool :=
  match m with Panic _ => true | Ret _ => false end.

(** *** Facts about the resolvers *)

Lemma assert_string_panics (v : value) :
  (forall s, v <> VString s) -> is_panic (assert_string v) = true.
Proof. intros H. destruct v; try reflexivity. exfalso. exact (H s eq_refl). Qed.

(** On an error of [Info], both resolvers return the zero values for
    [trainNo] and [date] together with that error. *)
Lemma TrainNo_error_zero (b : Bureau) (Info : string -> InfoResult)
  (nowDate qr : string) (e : error) :
  In b bureaus -> snd (Info qr) = Some e ->
  TrainNo b Info nowDate qr = Ret (""%string, ""%string, Some e).
Proof.
  intros Hb He. destruct Hb as [<- | [<- | []]]; simpl;
    [unfold TrainNo_H | unfold TrainNo_P];
    destruct (Info qr) as [info err]; simpl in He; subst err; reflexivity.
Qed.

(** A response of bureau "H" without a string field [trainName] makes its
    resolver panic, whatever the rest of the response. *)
Lemma TrainNo_H_bad_field_panics (Info : string -> InfoResult) (nowDate qr : string) :
  snd (Info qr) = None ->
  (forall s, lookup (fst (Info qr)) "trainName" <> VString s) ->
  is_panic (TrainNo_H Info nowDate qr) = true.
Proof.
  intros He Hf. unfold TrainNo_H. destruct (Info qr) as [info err].
  simpl in He, Hf. subst err.
  destruct (lookup info "trainName") eqn:E; try reflexivity.
  exfalso. exact (Hf s eq_refl).
Qed.

(** The same for bureau "P" and its field [TrainnoId]. *)
Lemma TrainNo_P_bad_id_panics (Info : string -> InfoResult) (nowDate qr : string) :
  snd (Info qr) = None ->
  (forall s, lookup (fst (Info qr)) "TrainnoId" <> VString s) ->
  is_panic (TrainNo_P Info nowDate qr) = true.
Proof.
  intros He Hf. unfold TrainNo_P. destruct (Info qr) as [info err].
  simpl in He, Hf. subst err.
  destruct (lookup info "TrainnoId") eqn:E; try reflexivity.
  exfalso. exact (Hf s eq_refl).
Qed.

(** The answers of a provider used below: an empty [data] object, and a
    [TrainInfo] object that has [TrainnoId] but no [TrainnoDate]. *)
Definition info_empty (_ : string) : InfoResult := ([], None).
Definition info_number (_ : string) : InfoResult := ([("trainName"%string, VNumber 101)], None).
Definition info_no_date (_ : string) : InfoResult := ([("TrainnoId"%string, VString "G101")], None).

(** C1 (the code panics): on a response of bureau "H" with no
    [trainName] field, or with a number there, and on a response of
    bureau "P" with [TrainnoId] but no [TrainnoDate], the resolver panics
    instead of returning an error. *)
Theorem TrainNo_malformed_response_panics :
  TrainNo_H info_empty "2024-05-01" "PQ0001"
    = Panic "interface conversion: interface {} is nil, not string" /\
  TrainNo_H info_number "2024-05-01" "PQ0001"
    = Panic "interface conversion: interface {} is float64, not string" /\
  TrainNo_P info_no_date "2024-05-01" "QR0001"
    = Panic "interface conversion: interface {} is nil, not string".
Proof. repeat split; reflexivity. Qed.

(** *** When the resolvers panic, and what they return otherwise *)

(** Bureau "H"'s resolver panics exactly when [Info] reports no error and
    the [trainName] field of the response is missing or not a string; on
    an error of [Info] it never panics. *)
Theorem TrainNo_H_panics_iff (Info : string -> InfoResult) (nowDate qr : string) :
  is_panic (TrainNo_H Info nowDate qr) = true <->
  snd (Info qr) = None /\ (forall s, lookup (fst (Info qr)) "trainName" <> VString s).
Proof.
  unfold TrainNo_H. destruct (Info qr) as [info [e|]]; simpl.
  - split; [discriminate | intros [H _]; discriminate].
  - destruct (lookup info "trainName") eqn:E; simpl;
      try (split; [intros _; split; [reflexivity | intros s; discriminate] | reflexivity]).
    split; [discriminate | intros [_ H]; exfalso; exact (H s eq_refl)].
Qed.

(** Bureau "P"'s resolver panics exactly when [Info] reports no error and
    [TrainnoId] or [TrainnoDate] of the response is missing or not a
    string. *)
Theorem TrainNo_P_panics_iff (Info : string -> InfoResult) (nowDate qr : string) :
  is_panic (TrainNo_P Info nowDate qr) = true <->
  snd (Info qr) = None /\
  ((forall s, lookup (fst (Info qr)) "TrainnoId" <> VString s) \/
   (forall s, lookup (fst (Info qr)) "TrainnoDate" <> VString s)).
Proof.
  unfold TrainNo_P. destruct (Info qr) as [info [e|]]; simpl.
  - split; [discriminate | intros [H _]; discriminate].
  - destruct (lookup info "TrainnoId") eqn:E1; simpl;
      try (split; [intros _; split; [reflexivity | left; intros s; discriminate] | reflexivity]).
    destruct (lookup info "TrainnoDate") eqn:E2; simpl;
      try (split; [intros _; split; [reflexivity | right; intros s'; discriminate] | reflexivity]).
    split; [discriminate |].
    intros [_ [H | H]]; exfalso; [exact (H s eq_refl) | exact (H s0 eq_refl)].
Qed.

(** On a response without error whose [trainName] is a string, bureau
    "H"'s resolver returns that string as the train number, today's date
    [nowDate] as the date, and no error. *)
Theorem TrainNo_H_ok (Info : string -> InfoResult) (nowDate qr t : string)
  (He : snd (Info qr) = None) (Ht : lookup (fst (Info qr)) "trainName" = VString t) :
  TrainNo_H Info nowDate qr = Ret (t, nowDate, None).
Proof.
  unfold TrainNo_H. destruct (Info qr) as [info err]. simpl in He, Ht. subst err.
  rewrite Ht. reflexivity.
Qed.

(** On a response without error whose [TrainnoId] and [TrainnoDate] are
    strings, bureau "P"'s resolver returns them as the train number and
    the date (the provider's date, not today's), and no error. *)
Theorem TrainNo_P_ok (Info : string -> InfoResult) (nowDate qr t d : string)
  (He : snd (Info qr) = None)
  (Ht : lookup (fst (Info qr)) "TrainnoId" = VString t)
  (Hd : lookup (fst (Info qr)) "TrainnoDate" = VString d) :
  TrainNo_P Info nowDate qr = Ret (t, d, None).
Proof.
  unfold TrainNo_P. destruct (Info qr) as [info err]. simpl in He, Ht, Hd. subst err.
  rewrite Ht, Hd. reflexivity.
Qed.

(** Responses used below: a full answer of bureau "H", and one of bureau
    "P" dated the day before. *)
Definition info_H_full (_ : string) : InfoResult :=
  ([("trainName"%string, VString "G101"); ("trainNo"%string, VNumber 101)], None).
Definition info_P_full (_ : string) : InfoResult :=
  ([("TrainnoId"%string, VString "D3102"); ("TrainnoDate"%string, VString "2024-04-30")], None).

Lemma TrainNo_H_ok_witness :
  snd (info_H_full "PQ0001") = None /\
  lookup (fst (info_H_full "PQ0001")) "trainName" = VString "G101" /\
  TrainNo_H info_H_full "2024-05-01" "PQ0001" = Ret ("G101"%string, "2024-05-01"%string, None).
Proof.
  assert (He : snd (info_H_full "PQ0001") = None) by reflexivity.
  assert (Ht : lookup (fst (info_H_full "PQ0001")) "trainName" = VString "G101") by reflexivity.
  split; [exact He | split; [exact Ht | apply (TrainNo_H_ok info_H_full _ _ _ He Ht)]].
Defined.

Lemma TrainNo_P_ok_witness :
  snd (info_P_full "QR0001") = None /\
  lookup (fst (info_P_full "QR0001")) "TrainnoId" = VString "D3102" /\
  lookup (fst (info_P_full "QR0001")) "TrainnoDate" = VString "2024-04-30" /\
  TrainNo_P info_P_full "2024-05-01" "QR0001" = Ret ("D3102"%string, "2024-04-30"%string, None).
Proof.
  assert (He : snd (info_P_full "QR0001") = None) by reflexivity.
  assert (Ht : lookup (fst (info_P_full "QR0001")) "TrainnoId" = VString "D3102") by reflexivity.
  assert (Hd : lookup (fst (info_P_full "QR0001")) "TrainnoDate" = VString "2024-04-30")
    by reflexivity.
  split; [exact He | split; [exact Ht | split; [exact Hd |]]].
  apply (TrainNo_P_ok info_P_full _ _ _ _ He Ht Hd).
Defined.

End Resolver.

(** ** The batch runner [iterVehicles] and its storage *)
Module Batch.

Import Resolver.

(** *** SQLite values, tables and cursors *)

Inductive sqlvalue : Type :=
| SNull
| SInt (z : Z)
| SText (s : string).

(** A row of [emu_qrcode] with its [rowid]. *)
Record QrRow : Type := {
  rowid : Z;
  emu_no : string;
  emu_bureau : string;
  emu_qrcode : string
}.

(** A result row of [SELECT emu_no, emu_qrcode, MIN(rowid)]. *)
Record Sel : Type := {
  s_emu_no : string;
  s_qrcode : string;
  s_minrowid : Z
}.

Definition sel_of (r : QrRow) : Sel :=
  {| s_emu_no := emu_no r; s_qrcode := emu_qrcode r; s_minrowid := rowid r |}.

(** [LogRecord]: a row [(date, emu_no, train_no)] of [emu_log]. *)
Record LogRecord : Type := {
  date : string;
  emuNo : string;
  trainNo : string
}.

Definition LogRecord_eqb (a b : LogRecord) : bool :=
  String.eqb (date a) (date b) && String.eqb (emuNo a) (emuNo b)
  && String.eqb (trainNo a) (trainNo b).

Lemma LogRecord_eqb_spec (a b : LogRecord) : LogRecord_eqb a b = true <-> a = b.
Proof.
  destruct a as [d1 e1 t1], b as [d2 e2 t2]. unfold LogRecord_eqb; simpl.
  rewrite !andb_true_iff, !String.eqb_eq. split.
  - intros [[-> ->] ->]. reflexivity.
  - intros H. inversion H. auto.
Qed.

Definition LogRecord_eq_dec (a b : LogRecord) : {a = b} + {a <> b}.
Proof.
  destruct (LogRecord_eqb a b) eqn:E.
  - left. apply LogRecord_eqb_spec. exact E.
  - right. intros H. apply LogRecord_eqb_spec in H. congruence.
Defined.

(** [INSERT OR IGNORE INTO emu_log VALUES (?, ?, ?)] on a table with
    [UNIQUE(date, emu_no, train_no)] (BINARY collation: byte equality):
    a row equal to an existing one is a conflict, which [OR IGNORE] skips
    without an error. *)
Definition insert_or_ignore (r : LogRecord) (tbl : list LogRecord)
  : option error * list LogRecord :=
  if existsb (LogRecord_eqb r) tbl then (None, tbl) else (None, tbl ++ [r]).

(** The result set of a query as [rows.Next] walks it: rows, then either
    the end or an error of the statement's step, which [rows.Next]
    reports as [false] and keeps for [rows.Err]. *)
Inductive cursor : Type :=
| CDone
| CErr (e : error)
| CRow (r : list sqlvalue) (rest : cursor).

(** Decimal rendering of an integer, as [database/sql] converts an
    [int64] column scanned into a [*string]. *)
Fixpoint digits (fuel : nat) (n : Z) (acc : string) : string :=
  match fuel with
  | O => acc
  | S f =>
      let acc' := String (ascii_of_nat (48 + Z.to_nat (n mod 10))) acc in
      if n <? 10 then acc' else digits f (n / 10) acc'
  end.

Definition Z_dec (z : Z) : string :=
  if z <? 0 then ("-" ++ digits 64 (- z) "")%string else digits 64 z "".

(** [convertAssign] into a [*string]. *)
Definition scan_string (v : sqlvalue) : option error * string :=
  match v with
  | SNull => (Some "converting NULL to string is unsupported"%string, ""%string)
  | SInt z => (None, Z_dec z)
  | SText s => (None, s)
  end.

(** [rows.Scan(&emuNo, &qrCode, &id)]. *)
Definition scan3 (row : list sqlvalue) : option error * (string * string * string) :=
  match row with
  | [v1; v2; v3] =>
      match scan_string v1, scan_string v2, scan_string v3 with
      | (None, a), (None, b), (None, c) => (None, (a, b, c))
      | (Some e, _), _, _ => (Some ("sql: Scan error on column index 0: " ++ e)%string, (""%string, ""%string, ""%string))
      | _, (Some e, _), _ => (Some ("sql: Scan error on column index 1: " ++ e)%string, (""%string, ""%string, ""%string))
      | _, _, (Some e, _) => (Some ("sql: Scan error on column index 2: " ++ e)%string, (""%string, ""%string, ""%string))
      end
  | _ => (Some "sql: expected 3 destination arguments in Scan"%string, (""%string, ""%string, ""%string))
  end.

(** *** The process: log output, the [emu_log] table, and termination *)

Inductive event : Type :=
| EInfo (msg : string)
| EDebug (msg : string)
| EFatal (msg : string)
| ESleep (d : Z)
| EResolve (emuNo qrCode : string)
| EExec (r : LogRecord).

Record St : Type := {
  emu_log : list LogRecord;
  trace : list event
}.

(** How the process stops: [os.Exit(code)] (called by zerolog's
    [log.Fatal().Msg]), or an unrecovered panic, which exits with status 2. *)
Inductive halt : Type :=
| Exit (code : Z)
| Crash (msg : string).

Definition M (A : Type) : Type := St -> (A + halt) * St.

Definition ret {A : Type} (a : A) : M A := fun s => (inl a, s).

Definition bind {A B : Type} (m : M A) (k : A -> M B) : M B :=
  fun s => match m s with
           | (inl a, s') => k a s'
           | (inr h, s') => (inr h, s')
           end.

Notation "x <- m ;; k" := (bind m (fun x => k)) (at level 61, m at next level, right associativity).
Notation "m ;;; k" := (bind m (fun _ => k)) (at level 61, right associativity).

Definition emit (e : event) : M unit :=
  fun s => (inl tt, {| emu_log := emu_log s; trace := trace s ++ [e] |}).

Definition os_exit {A : Type} (code : Z) : M A := fun s => (inr (Exit code), s).

(** A panic of Go code that nothing recovers. *)
Definition run_go {A : Type} (m : go A) : M A :=
  fun s => match m with
           | Ret a => (inl a, s)
           | Panic msg => (inr (Crash ("panic: " ++ msg)), s)
           end.

(** [checkFatal] (lines 182-186). *)
Definition checkFatal (err : option error) : M unit :=
  match err with
  | None => ret tt
  | Some e => emit (EFatal e) ;;; os_exit 1
  end.

Section Runner.

(** The environment of one run: [db.Query] of the vehicle statement for a
    bureau code, the storage faults of [db.Exec] (a failing write, e.g. a
    locked or full database), the providers' [Info], and today's date. *)
Variable query : string -> error + cursor.
Variable exec_fault : LogRecord -> option error.
Variable Info : string -> InfoResult.
Variable nowDate : string.

(** [db.Exec] of the insert. *)
Definition exec_insert (r : LogRecord) : M (option error) :=
  fun s =>
    let s1 := {| emu_log := emu_log s; trace := trace s ++ [EExec r] |} in
    match exec_fault r with
    | Some e => (inl (Some e), s1)
    | None =>
        let '(err, tbl) := insert_or_ignore r (emu_log s) in
        (inl err, {| emu_log := tbl; trace := trace s1 |})
    end.

(** The body of [for rows.Next() { ... }] (lines 165-178) on one row. *)
Definition vehicle_step (b : Bureau) (raw : list sqlvalue) : M unit :=
  let '(serr, (emuNo0, qrCode, _)) := scan3 raw in
  checkFatal serr ;;;
  emit (ESleep Sched.requestDelay) ;;;
  emit (EResolve emuNo0 qrCode) ;;;
  res <- run_go (TrainNo b Info nowDate qrCode) ;;
  let '(trainNo0, date0, _) := res in
  emit (EDebug (emuNo0 ++ ": " ++ Code b ++ "/" ++ trainNo0)) ;;;
  (if negb (String.eqb trainNo0 "") then
     err <- exec_insert {| date := date0; emuNo := emuNo0; trainNo := trainNo0 |} ;;
     checkFatal err
   else ret tt).

(** The loop over [rows]; a [false] of [rows.Next] ends it, and
    [rows.Err] is never consulted. *)
Fixpoint vehicles_loop (b : Bureau) (c : cursor) : M unit :=
  match c with
  | CDone => ret tt
  | CErr _ => ret tt
  | CRow raw rest => vehicle_step b raw ;;; vehicles_loop b rest
  end.

(** [iterVehicles] (lines 151-180). Its two info lines print [b.Name];
    here they carry the bureau's [Code], the [Name] field (a display
    string) being left out of [Bureau]. *)
Definition iterVehicles (b : Bureau) : M unit :=
  emit (EInfo ("job started: " ++ Code b)) ;;;
  match query (Code b) with
  | inl e => checkFatal (Some e)
  | inr rows =>
      checkFatal None ;;;
      vehicles_loop b rows ;;;
      emit (EInfo ("job done: " ++ Code b))
  end.

End Runner.

(** *** The vehicle statement

    [SELECT emu_no, emu_qrcode, MIN(rowid) FROM emu_qrcode
     WHERE emu_bureau = ? GROUP BY emu_no ORDER BY emu_no ASC].
    SQLite groups on [emu_no] with the BINARY collation (byte order, which
    is [String.compare] on bytes); with the aggregate [MIN], the bare
    column [emu_qrcode] is taken from the row that holds the minimum
    [rowid]. [group_insert] adds one row of the scan to the groups built
    so far, kept in [emu_no] order, which is also the [ORDER BY]. *)
Fixpoint group_insert (r : QrRow) (acc : list Sel) : list Sel :=
  match acc with
  | [] => [sel_of r]
  | s :: acc' =>
      match String.compare (emu_no r) (s_emu_no s) with
      | Lt => sel_of r :: acc
      | Eq => (if rowid r <? s_minrowid s then sel_of r else s) :: acc'
      | Gt => s :: group_insert r acc'
      end
  end.

Definition select_earliest (tbl : list QrRow) (code : string) : list Sel :=
  fold_left (fun acc r => group_insert r acc)
            (filter (fun r => String.eqb (emu_bureau r) code) tbl) [].

Definition sel_row (s : Sel) : list sqlvalue :=
  [SText (s_emu_no s); SText (s_qrcode s); SInt (s_minrowid s)].

(** The cursor of a statement that steps without error. *)
Fixpoint cursor_of (l : list Sel) : cursor :=
  match l with
  | [] => CDone
  | s :: l' => CRow (sel_row s) (cursor_of l')
  end.

(** [db.Query] on a table [tbl] that answers without storage errors. *)
Definition query_of (tbl : list QrRow) (code : string) : error + cursor :=
  inr (cursor_of (select_earliest tbl code)).

(** The vehicles whose resolution the runner started, in order. *)
Fixpoint resolved (tr : list event) : list string :=
  match tr with
  | [] => []
  | EResolve e _ :: tr' => e :: resolved tr'
  | _ :: tr' => resolved tr'
  end.

Definition str_lt (a b : string) : Prop := String.compare a b = Lt.
Definition sel_lt (a b : Sel) : Prop := str_lt (s_emu_no a) (s_emu_no b).

(** *** The insert *)

Lemma existsb_LogRecord (r : LogRecord) (tbl : list LogRecord) :
  existsb (LogRecord_eqb r) tbl = true <-> In r tbl.
Proof.
  rewrite existsb_exists. split.
  - intros [x [Hx E]]. apply LogRecord_eqb_spec in E. subst. exact Hx.
  - intros H. exists r. split; [exact H | apply LogRecord_eqb_spec; reflexivity].
Qed.

(** [INSERT OR IGNORE] keeps the [UNIQUE] constraint of [emu_log]. *)
Lemma insert_or_ignore_NoDup (r : LogRecord) (tbl : list LogRecord) :
  NoDup tbl -> NoDup (snd (insert_or_ignore r tbl)).
Proof.
  intros H. unfold insert_or_ignore.
  destruct (existsb (LogRecord_eqb r) tbl) eqn:E; simpl; [exact H |].
  apply NoDup_app; [exact H | constructor; [intros [] | constructor] |].
  intros x Hx [Hr | []]. subst x. apply (proj2 (existsb_LogRecord r tbl)) in Hx. congruence.
Qed.

(** C4: on a table that satisfies [UNIQUE(date, emu_no, train_no)],
    performing the insert twice reports no error either time, the second
    insert leaves the table as the first left it, and the table holds
    exactly one row equal to the triple. *)
Theorem insert_or_ignore_twice (r : LogRecord) (tbl : list LogRecord) (Huniq : NoDup tbl) :
  fst (insert_or_ignore r tbl) = None /\
  fst (insert_or_ignore r (snd (insert_or_ignore r tbl))) = None /\
  snd (insert_or_ignore r (snd (insert_or_ignore r tbl))) = snd (insert_or_ignore r tbl) /\
  count_occ LogRecord_eq_dec (snd (insert_or_ignore r (snd (insert_or_ignore r tbl)))) r = 1%nat.
Proof.
  assert (Hin : In r (snd (insert_or_ignore r tbl))).
  { unfold insert_or_ignore. destruct (existsb (LogRecord_eqb r) tbl) eqn:E; simpl.
    - apply existsb_LogRecord. exact E.
    - apply in_or_app. right. left. reflexivity. }
  assert (Hsecond : insert_or_ignore r (snd (insert_or_ignore r tbl))
                    = (None, snd (insert_or_ignore r tbl))).
  { unfold insert_or_ignore at 1. apply existsb_LogRecord in Hin. rewrite Hin. reflexivity. }
  rewrite Hsecond. simpl. split; [unfold insert_or_ignore; destruct existsb; reflexivity |].
  split; [reflexivity | split; [reflexivity |]].
  pose proof (insert_or_ignore_NoDup r tbl Huniq) as Hnd.
  rewrite (NoDup_count_occ LogRecord_eq_dec) in Hnd.
  specialize (Hnd r).
  assert (0 < count_occ LogRecord_eq_dec (snd (insert_or_ignore r tbl)) r)%nat
    by (apply count_occ_In; exact Hin).
  Stdlib.micromega.Lia.lia.
Qed.

Definition log_G101 : LogRecord :=
  {| date := "2024-05-01"; emuNo := "CRH1-001"; trainNo := "G101" |}.

Lemma insert_or_ignore_twice_witness :
  NoDup ([] : list LogRecord) /\
  fst (insert_or_ignore log_G101 []) = None /\
  fst (insert_or_ignore log_G101 (snd (insert_or_ignore log_G101 []))) = None /\
  snd (insert_or_ignore log_G101 (snd (insert_or_ignore log_G101 [])))
    = snd (insert_or_ignore log_G101 []) /\
  count_occ LogRecord_eq_dec
    (snd (insert_or_ignore log_G101 (snd (insert_or_ignore log_G101 [])))) log_G101 = 1%nat.
Proof.
  assert (H : NoDup ([] : list LogRecord)) by constructor.
  split; [exact H | apply (insert_or_ignore_twice log_G101 [] H)].
Defined.

(** *** Storage errors and resolution errors in the batch *)

Definition st0 : St := {| emu_log := []; trace := [] |}.

Definition no_fault (_ : LogRecord) : option error := None.

Definition info_G101 (_ : string) : InfoResult := ([("trainName"%string, VString "G101")], None).

(** The errors that the code passes to [checkFatal] stop the process
    with status 1: a failing [db.Query] ... *)
Lemma iterVehicles_query_error_exits (query : string -> error + cursor)
  (exec_fault : LogRecord -> option error) (Info : string -> InfoResult)
  (nowDate : string) (b : Bureau) (st : St) (e : error) :
  query (Code b) = inl e ->
  fst (iterVehicles query exec_fault Info nowDate b st) = inr (Exit 1).
Proof. intros H. unfold iterVehicles. unfold bind at 1. simpl. rewrite H. reflexivity. Qed.

(** ... and a failing [db.Exec] of the insert, after which no further row
    is read. *)
Lemma vehicles_loop_exec_fault_exits (exec_fault : LogRecord -> option error)
  (Info : string -> InfoResult) (nowDate : string) (b : Bureau)
  (raw : list sqlvalue) (rest : cursor) (st : St)
  (emu qr id t d : string) (err : option error) (e : error) :
  scan3 raw = (None, (emu, qr, id)) ->
  TrainNo b Info nowDate qr = Ret (t, d, err) ->
  t <> ""%string ->
  exec_fault {| date := d; emuNo := emu; trainNo := t |} = Some e ->
  fst (vehicles_loop exec_fault Info nowDate b (CRow raw rest) st) = inr (Exit 1).
Proof.
  intros Hs Hr Ht Hf. simpl. unfold vehicle_step. rewrite Hs.
  unfold bind, checkFatal, emit, ret, run_go. rewrite Hr.
  apply String.eqb_neq in Ht. rewrite Ht. simpl.
  unfold exec_insert. rewrite Hf. reflexivity.
Qed.

(** The statement of bureau "H" returns one row and then fails in its
    next step ([rows.Next] is [false], [rows.Err] holds the error). *)
Definition query_fails_midway (_ : string) : error + cursor :=
  inr (CRow [SText "CRH1-001"; SText "PQ0001"; SInt 1]
            (CErr "database is locked"%string)).

(** C6 (the code misses one storage error): when the query's step fails
    after the first row, [iterVehicles] neither logs a fatal message nor
    exits; it logs "job done" and returns normally. *)
Theorem iterVehicles_step_error_not_fatal :
  iterVehicles query_fails_midway no_fault info_G101 "2024-05-01" bureau_H st0 =
  (inl tt,
   {| emu_log := [{| date := "2024-05-01"; emuNo := "CRH1-001"; trainNo := "G101" |}];
      trace := [EInfo "job started: H";
                ESleep Sched.requestDelay;
                EResolve "CRH1-001" "PQ0001";
                EDebug "CRH1-001: H/G101";
                EExec {| date := "2024-05-01"; emuNo := "CRH1-001"; trainNo := "G101" |};
                EInfo "job done: H"] |}).
Proof. reflexivity. Qed.

(** C9: when [TrainNo] of a bureau returns an error for a row, the row
    inserts nothing, the table is unchanged, and the loop goes on with the
    remaining rows. *)
Theorem resolution_error_skips_vehicle (exec_fault : LogRecord -> option error)
  (Info : string -> InfoResult) (nowDate : string) (b : Bureau)
  (raw : list sqlvalue) (rest : cursor) (emu qr id : string) (e : error) (st : St)
  (Hb : In b bureaus) (Hscan : scan3 raw = (None, (emu, qr, id)))
  (Herr : snd (Info qr) = Some e) :
  vehicles_loop exec_fault Info nowDate b (CRow raw rest) st =
  vehicles_loop exec_fault Info nowDate b rest
    {| emu_log := emu_log st;
       trace := trace st ++ [ESleep Sched.requestDelay; EResolve emu qr;
                             EDebug (emu ++ ": " ++ Code b ++ "/")] |}.
Proof.
  pose proof (TrainNo_error_zero b Info nowDate qr e Hb Herr) as Hr.
  simpl. unfold vehicle_step. rewrite Hscan.
  unfold bind, checkFatal, emit, ret, run_go. rewrite Hr. simpl.
  rewrite <- !app_assoc. reflexivity.
Qed.

Definition info_down (_ : string) : InfoResult :=
  ([], Some "Get https://g.xiuxiu365.cn/railway_api/web/index/train: context deadline exceeded"%string).

Lemma resolution_error_skips_vehicle_witness :
  In bureau_H bureaus /\
  scan3 [SText "CRH1-001"; SText "PQ0001"; SInt 7] = (None, ("CRH1-001"%string, "PQ0001"%string, "7"%string)) /\
  snd (info_down "PQ0001") = Some "Get https://g.xiuxiu365.cn/railway_api/web/index/train: context deadline exceeded"%string /\
  vehicles_loop no_fault info_down "2024-05-01" bureau_H
    (CRow [SText "CRH1-001"; SText "PQ0001"; SInt 7] CDone) st0 =
  vehicles_loop no_fault info_down "2024-05-01" bureau_H CDone
    {| emu_log := emu_log st0;
       trace := trace st0 ++ [ESleep Sched.requestDelay; EResolve "CRH1-001" "PQ0001";
                              EDebug ("CRH1-001" ++ ": " ++ Code bureau_H ++ "/")] |}.
Proof.
  assert (Hb : In bureau_H bureaus) by (left; reflexivity).
  assert (Hs : scan3 [SText "CRH1-001"; SText "PQ0001"; SInt 7]
               = (None, ("CRH1-001"%string, "PQ0001"%string, "7"%string))) by reflexivity.
  assert (He : snd (info_down "PQ0001")
               = Some "Get https://g.xiuxiu365.cn/railway_api/web/index/train: context deadline exceeded"%string) by reflexivity.
  split; [exact Hb | split; [exact Hs | split; [exact He |]]].
  apply (resolution_error_skips_vehicle no_fault info_down "2024-05-01" bureau_H
           _ CDone _ _ _ _ st0 Hb Hs He).
Defined.

(** C10: whether a row inserts depends only on the resolved [trainNo]:
    whatever error [TrainNo] returned, a non-empty [trainNo] is inserted
    (and a failing insert is fatal) and an empty one is skipped without a
    message; the two bureaus' resolvers return an empty [trainNo] exactly
    with every error. *)
Theorem vehicle_step_inserts_iff_nonempty (exec_fault : LogRecord -> option error)
  (Info : string -> InfoResult) (nowDate : string) (b : Bureau)
  (raw : list sqlvalue) (emu qr id t d : string) (err : option error) (st : St)
  (Hscan : scan3 raw = (None, (emu, qr, id)))
  (Hres : TrainNo b Info nowDate qr = Ret (t, d, err)) :
  vehicle_step exec_fault Info nowDate b raw st =
  (let r := {| date := d; emuNo := emu; trainNo := t |} in
   let pre := trace st ++ [ESleep Sched.requestDelay; EResolve emu qr;
                           EDebug (emu ++ ": " ++ Code b ++ "/" ++ t)] in
   if String.eqb t "" then (inl tt, {| emu_log := emu_log st; trace := pre |})
   else match exec_fault r with
        | Some e => (inr (Exit 1), {| emu_log := emu_log st; trace := pre ++ [EExec r; EFatal e] |})
        | None => (inl tt, {| emu_log := snd (insert_or_ignore r (emu_log st));
                              trace := pre ++ [EExec r] |})
        end) /\
  (forall e, In b bureaus -> snd (Info qr) = Some e -> t = ""%string).
Proof.
  split.
  - unfold vehicle_step. rewrite Hscan.
    unfold bind, checkFatal, emit, ret, run_go. rewrite Hres. simpl.
    destruct (String.eqb t "") eqn:Et; simpl.
    + rewrite <- !app_assoc. reflexivity.
    + unfold exec_insert.
      destruct (exec_fault {| date := d; emuNo := emu; trainNo := t |}) as [e|] eqn:Ef.
      * unfold bind, os_exit. simpl. rewrite <- !app_assoc. reflexivity.
      * assert (Hn : fst (insert_or_ignore {| date := d; emuNo := emu; trainNo := t |} (emu_log st)) = None)
          by (unfold insert_or_ignore; destruct existsb; reflexivity).
        destruct (insert_or_ignore {| date := d; emuNo := emu; trainNo := t |} (emu_log st))
          as [e0 tbl] eqn:Ei.
        simpl in Hn. subst e0. simpl. rewrite Ei. simpl. rewrite <- !app_assoc. reflexivity.
  - intros e Hb He. rewrite (TrainNo_error_zero b Info nowDate qr e Hb He) in Hres.
    congruence.
Qed.

(** A provider that answers with an empty [trainName]. *)
Definition info_blank (_ : string) : InfoResult := ([("trainName"%string, VString "")], None).

Lemma vehicle_step_inserts_iff_nonempty_witness :
  scan3 [SText "CRH1-001"; SText "PQ0001"; SInt 7] = (None, ("CRH1-001"%string, "PQ0001"%string, "7"%string)) /\
  TrainNo bureau_H info_blank "2024-05-01" "PQ0001" = Ret (""%string, "2024-05-01"%string, None) /\
  vehicle_step no_fault info_blank "2024-05-01" bureau_H [SText "CRH1-001"; SText "PQ0001"; SInt 7] st0
    = (inl tt, {| emu_log := [];
                  trace := [ESleep Sched.requestDelay; EResolve "CRH1-001" "PQ0001";
                            EDebug "CRH1-001: H/"] |}).
Proof.
  assert (Hs : scan3 [SText "CRH1-001"; SText "PQ0001"; SInt 7]
               = (None, ("CRH1-001"%string, "PQ0001"%string, "7"%string))) by reflexivity.
  assert (Hr : TrainNo bureau_H info_blank "2024-05-01" "PQ0001"
               = Ret (""%string, "2024-05-01"%string, None)) by reflexivity.
  split; [exact Hs | split; [exact Hr |]].
  destruct (vehicle_step_inserts_iff_nonempty no_fault info_blank "2024-05-01" bureau_H
              _ _ _ _ _ _ _ st0 Hs Hr) as [H _].
  rewrite H. reflexivity.
Defined.

(** *** The order of [emu_no] *)

Lemma str_lt_trans (a b c : string) : str_lt a b -> str_lt b c -> str_lt a c.
Proof.
  unfold str_lt. intros H1 H2.
  apply (String_as_OT.cmp_lt a c).
  apply String_as_OT.cmp_lt in H1. apply String_as_OT.cmp_lt in H2.
  eapply String_as_OT.lt_trans; eassumption.
Qed.

Lemma str_lt_irrefl (a : string) : ~ str_lt a a.
Proof.
  unfold str_lt. assert (H : String.compare a a = Eq) by (apply (String_as_OT.cmp_eq a a); reflexivity).
  rewrite H. discriminate.
Qed.

Lemma str_lt_neq (a b : string) : str_lt a b -> a <> b.
Proof. intros H ->. exact (str_lt_irrefl b H). Qed.

Lemma compare_Gt_lt (a b : string) : String.compare a b = Gt -> str_lt b a.
Proof.
  intros H. unfold str_lt. rewrite String.compare_antisym, H. reflexivity.
Qed.

(** *** [group_insert] *)

Lemma group_insert_keys (r : QrRow) (acc : list Sel) (v : string) :
  In v (map s_emu_no (group_insert r acc)) <-> emu_no r = v \/ In v (map s_emu_no acc).
Proof.
  induction acc as [| s acc IH]; simpl.
  - tauto.
  - destruct (String.compare (emu_no r) (s_emu_no s)) eqn:C; simpl.
    + apply String.compare_eq_iff in C.
      destruct (rowid r <? s_minrowid s); simpl; rewrite C; tauto.
    + tauto.
    + rewrite IH. tauto.
Qed.

Lemma group_insert_sorted (r : QrRow) (acc : list Sel) :
  StronglySorted sel_lt acc -> StronglySorted sel_lt (group_insert r acc).
Proof.
  induction acc as [| s acc IH]; intros Hs; simpl.
  - constructor; constructor.
  - inversion Hs as [| ? ? Hacc Hall]; subst.
    destruct (String.compare (emu_no r) (s_emu_no s)) eqn:C.
    + apply String.compare_eq_iff in C.
      constructor; [exact Hacc |].
      destruct (rowid r <? s_minrowid s); [| exact Hall].
      eapply Forall_impl; [| exact Hall]. intros x Hx. unfold sel_lt in *. simpl. rewrite C. exact Hx.
    + constructor; [exact Hs |]. constructor; [exact C |].
      eapply Forall_impl; [| exact Hall]. intros x Hx. eapply str_lt_trans; [exact C | exact Hx].
    + constructor; [apply IH; exact Hacc |].
      apply Forall_forall. intros x Hx.
      assert (Hk : In (s_emu_no x) (map s_emu_no (group_insert r acc))) by (apply in_map; exact Hx).
      apply group_insert_keys in Hk. destruct Hk as [Hk | Hk].
      * unfold sel_lt. rewrite <- Hk. apply compare_Gt_lt. exact C.
      * apply in_map_iff in Hk. destruct Hk as [y [Hy Hin]].
        rewrite Forall_forall in Hall. specialize (Hall y Hin).
        unfold sel_lt in *. rewrite <- Hy. exact Hall.
Qed.

(** The groups after adding [r]: those of other vehicles are unchanged;
    the group of [r]'s vehicle is [r] when [r] has the least [rowid] so
    far, or the earlier representative otherwise. *)
Lemma group_insert_elems (r : QrRow) (acc : list Sel) (x : Sel) :
  StronglySorted sel_lt acc -> In x (group_insert r acc) ->
  (In x acc /\ s_emu_no x <> emu_no r) \/
  (x = sel_of r /\ forall s, In s acc -> s_emu_no s = emu_no r -> rowid r < s_minrowid s) \/
  (In x acc /\ s_emu_no x = emu_no r /\ s_minrowid x <= rowid r).
Proof.
  induction acc as [| s acc IH]; intros Hs Hx; simpl in Hx.
  - destruct Hx as [<- | []]. right; left. split; [reflexivity | intros s []].
  - inversion Hs as [| ? ? Hacc Hall]; subst.
    rewrite Forall_forall in Hall.
    destruct (String.compare (emu_no r) (s_emu_no s)) eqn:C.
    + apply String.compare_eq_iff in C.
      destruct (rowid r <? s_minrowid s) eqn:R.
      * destruct Hx as [<- | Hx].
        -- right; left. split; [reflexivity |].
           intros s' [<- | Hs'] Hk; [apply Z.ltb_lt; exact R |].
           exfalso. apply (str_lt_neq (s_emu_no s) (s_emu_no s')); [apply Hall; exact Hs' | congruence].
        -- left. split; [right; exact Hx |].
           intros Hk. apply (str_lt_neq (s_emu_no s) (s_emu_no x)); [apply Hall; exact Hx | congruence].
      * destruct Hx as [<- | Hx].
        -- right; right. split; [left; reflexivity |]. split; [congruence |].
           apply Z.ltb_ge. exact R.
        -- left. split; [right; exact Hx |].
           intros Hk. apply (str_lt_neq (s_emu_no s) (s_emu_no x)); [apply Hall; exact Hx | congruence].
    + assert (Hfar : forall s', In s' (s :: acc) -> s_emu_no s' <> emu_no r).
      { intros s' [<- | Hs'] Hk.
        - apply (str_lt_neq (emu_no r) (s_emu_no s)); [exact C | congruence].
        - apply (str_lt_neq (emu_no r) (s_emu_no s')); [| congruence].
          eapply str_lt_trans; [exact C | apply Hall; exact Hs']. }
      destruct Hx as [<- | Hx].
      * right; left. split; [reflexivity |].
        intros s' Hs' Hk. exfalso. exact (Hfar s' Hs' Hk).
      * left. split; [exact Hx | apply Hfar; exact Hx].
    + destruct Hx as [<- | Hx].
      * left. split; [left; reflexivity |].
        intros Hk. apply (str_lt_neq (s_emu_no s) (emu_no r)); [apply compare_Gt_lt; exact C | exact Hk].
      * destruct (IH Hacc Hx) as [[H1 H2] | [[H1 H2] | [H1 H2]]].
        -- left. split; [right; exact H1 | exact H2].
        -- right; left. split; [exact H1 |].
           intros s' [<- | Hs'] Hk; [| apply H2; assumption].
           exfalso. apply (str_lt_neq (s_emu_no s) (emu_no r)); [apply compare_Gt_lt; exact C | exact Hk].
        -- right; right. split; [right; exact H1 | exact H2].
Qed.

(** *** The groups built by the scan

    [Rep acc seen]: [acc] is sorted strictly by vehicle, covers every
    vehicle of the rows [seen], and holds for each vehicle the row of
    least [rowid] among [seen]. *)
Definition Rep (acc : list Sel) (seen : list QrRow) : Prop :=
  StronglySorted sel_lt acc /\
  (forall r, In r seen -> In (emu_no r) (map s_emu_no acc)) /\
  (forall x, In x acc -> exists r, In r seen /\ sel_of r = x /\
     forall r', In r' seen -> emu_no r' = s_emu_no x -> rowid r <= rowid r').

Lemma Rep_nil : Rep [] [].
Proof. split; [constructor | split; intros ? []]. Qed.

Lemma Rep_group_insert (r : QrRow) (acc : list Sel) (seen : list QrRow) :
  Rep acc seen -> Rep (group_insert r acc) (r :: seen).
Proof.
  intros [Hs [Hcov Hmin]]. split; [| split].
  - apply group_insert_sorted. exact Hs.
  - intros r' [<- | Hr'].
    + apply group_insert_keys. left. reflexivity.
    + apply group_insert_keys. right. apply Hcov. exact Hr'.
  - intros x Hx.
    destruct (group_insert_elems r acc x Hs Hx) as [[H1 H2] | [[H1 H2] | [H1 [H2 H3]]]].
    + destruct (Hmin x H1) as [r0 [Hr0 [Hsel Hle]]].
      exists r0. split; [right; exact Hr0 | split; [exact Hsel |]].
      intros r' [<- | Hr'] Hk; [exfalso; apply H2; congruence | apply Hle; assumption].
    + subst x. exists r. split; [left; reflexivity | split; [reflexivity |]].
      intros r' [<- | Hr'] Hk; [lia |].
      simpl in Hk.
      assert (Hin : In (emu_no r') (map s_emu_no acc)) by (apply Hcov; exact Hr').
      apply in_map_iff in Hin. destruct Hin as [s [Hks Hs']].
      assert (Hlt : rowid r < s_minrowid s) by (apply H2; [exact Hs' | congruence]).
      destruct (Hmin s Hs') as [r0 [_ [Hsel Hle]]].
      assert (Hr0 : rowid r0 <= rowid r') by (apply Hle; [exact Hr' | congruence]).
      subst s. simpl in Hlt. lia.
    + destruct (Hmin x H1) as [r0 [Hr0 [Hsel Hle]]].
      exists r0. split; [right; exact Hr0 | split; [exact Hsel |]].
      intros r' [<- | Hr'] Hk; [| apply Hle; assumption].
      subst x. simpl in H3. exact H3.
Qed.

Lemma Rep_fold (L : list QrRow) (acc : list Sel) (seen : list QrRow) :
  Rep acc seen ->
  Rep (fold_left (fun acc r => group_insert r acc) L acc) (rev L ++ seen).
Proof.
  revert acc seen. induction L as [| r L IH]; intros acc seen H; simpl.
  - exact H.
  - rewrite <- app_assoc. simpl. apply IH. apply Rep_group_insert. exact H.
Qed.

Lemma StronglySorted_NoDup (l : list Sel) :
  StronglySorted sel_lt l -> NoDup (map s_emu_no l).
Proof.
  induction 1 as [| x l Hl IH Hall]; simpl; constructor; [| exact IH].
  intros Hin. apply in_map_iff in Hin. destruct Hin as [y [Hy Hiny]].
  rewrite Forall_forall in Hall. specialize (Hall y Hiny). unfold sel_lt in Hall.
  rewrite Hy in Hall. exact (str_lt_irrefl _ Hall).
Qed.

Lemma select_earliest_Rep (tbl : list QrRow) (code : string) :
  Rep (select_earliest tbl code)
      (rev (filter (fun r => String.eqb (emu_bureau r) code) tbl) ++ []).
Proof. apply Rep_fold. exact Rep_nil. Qed.

Lemma in_selected (tbl : list QrRow) (code : string) (r : QrRow) :
  In r (rev (filter (fun r => String.eqb (emu_bureau r) code) tbl) ++ [])
  <-> In r tbl /\ emu_bureau r = code.
Proof.
  rewrite app_nil_r, <- in_rev, filter_In, String.eqb_eq. tauto.
Qed.

(** The result of the vehicle statement: strictly ascending vehicles, one
    row per vehicle of the bureau, and for each the scan code and [rowid]
    of that vehicle's row of least [rowid]. *)
Lemma select_earliest_spec (tbl : list QrRow) (code : string) :
  StronglySorted sel_lt (select_earliest tbl code) /\
  NoDup (map s_emu_no (select_earliest tbl code)) /\
  (forall v, In v (map s_emu_no (select_earliest tbl code)) <->
             exists r, In r tbl /\ emu_bureau r = code /\ emu_no r = v) /\
  (forall x, In x (select_earliest tbl code) ->
     exists r, In r tbl /\ emu_bureau r = code /\ sel_of r = x /\
       forall r', In r' tbl -> emu_bureau r' = code -> emu_no r' = s_emu_no x ->
                  rowid r <= rowid r').
Proof.
  destruct (select_earliest_Rep tbl code) as [Hs [Hcov Hmin]].
  split; [exact Hs | split; [apply StronglySorted_NoDup; exact Hs | split]].
  - intros v. split.
    + intros Hv. apply in_map_iff in Hv. destruct Hv as [x [Hx Hin]].
      destruct (Hmin x Hin) as [r [Hr [Hsel _]]].
      apply in_selected in Hr. exists r. split; [apply Hr | split; [apply Hr |]].
      subst x. exact Hx.
    + intros [r [Hr [Hb Hk]]]. subst v. apply Hcov. apply in_selected. auto.
  - intros x Hx. destruct (Hmin x Hx) as [r [Hr [Hsel Hle]]].
    apply in_selected in Hr. exists r.
    split; [apply Hr | split; [apply Hr | split; [exact Hsel |]]].
    intros r' Hr' Hb' Hk. apply Hle; [apply in_selected; auto | exact Hk].
Qed.

(** *** The order in which the runner works through the vehicles *)

Lemma resolved_app (a b : list event) : resolved (a ++ b) = resolved a ++ resolved b.
Proof. induction a as [| e a IH]; [reflexivity |]. destruct e; simpl; rewrite ?IH; reflexivity. Qed.

Lemma StronglySorted_map_key (l : list Sel) :
  StronglySorted sel_lt l -> StronglySorted str_lt (map s_emu_no l).
Proof.
  induction 1 as [| x l Hl IH Hall]; simpl; constructor; [exact IH |].
  apply Forall_map. exact Hall.
Qed.

Lemma StronglySorted_app_l {A : Type} (R : A -> A -> Prop) (a b : list A) :
  StronglySorted R (a ++ b) -> StronglySorted R a.
Proof.
  induction a as [| x a IH]; intros H; simpl in *; [constructor |].
  inversion H as [| ? ? Hab Hall]; subst. constructor; [apply IH; exact Hab |].
  rewrite Forall_forall in *. intros y Hy. apply Hall. apply in_or_app. left. exact Hy.
Qed.

(** Every row of the statement starts the resolution of its vehicle,
    whatever happens afterwards. *)
Lemma vehicle_step_resolved (exec_fault : LogRecord -> option error)
  (Info : string -> InfoResult) (nowDate : string) (b : Bureau) (s : Sel) (st : St) :
  exists new, trace (snd (vehicle_step exec_fault Info nowDate b (sel_row s) st)) = trace st ++ new /\
              resolved new = [s_emu_no s].
Proof.
  unfold vehicle_step, sel_row. simpl.
  unfold bind, checkFatal, emit, ret, run_go. simpl.
  destruct (TrainNo b Info nowDate (s_qrcode s)) as [[[t dt] e] | msg]; simpl.
  - destruct (String.eqb t ""); simpl.
    + eexists. split; [rewrite <- !app_assoc; reflexivity | reflexivity].
    + unfold exec_insert.
      destruct (exec_fault {| date := dt; emuNo := s_emu_no s; trainNo := t |}) as [e'|]; simpl.
      * unfold os_exit. simpl. eexists. split; [rewrite <- !app_assoc; reflexivity | reflexivity].
      * destruct (insert_or_ignore {| date := dt; emuNo := s_emu_no s; trainNo := t |} (emu_log st))
          as [e0 tbl] eqn:Ei.
        destruct e0 as [e0|]; simpl; unfold bind, os_exit; simpl;
          eexists; (split; [rewrite <- !app_assoc; reflexivity | reflexivity]).
  - eexists. split; [rewrite <- !app_assoc; reflexivity | reflexivity].
Qed.

Lemma vehicles_loop_resolved (exec_fault : LogRecord -> option error)
  (Info : string -> InfoResult) (nowDate : string) (b : Bureau) (l : list Sel) :
  forall st, exists new,
    trace (snd (vehicles_loop exec_fault Info nowDate b (cursor_of l) st)) = trace st ++ new /\
    (exists rest, map s_emu_no l = resolved new ++ rest) /\
    (fst (vehicles_loop exec_fault Info nowDate b (cursor_of l) st) = inl tt ->
     resolved new = map s_emu_no l).
Proof.
  induction l as [| s l IH]; intros st; simpl.
  - exists []. rewrite app_nil_r. split; [reflexivity | split; [exists []; reflexivity | reflexivity]].
  - destruct (vehicle_step_resolved exec_fault Info nowDate b s st) as [new1 [Ht1 Hr1]].
    unfold bind.
    destruct (vehicle_step exec_fault Info nowDate b (sel_row s) st) as [res st1] eqn:E.
    simpl in Ht1. destruct res as [u | h].
    + destruct (IH st1) as [new2 [Ht2 [[rest Hp2] Hf2]]].
      exists (new1 ++ new2). split; [rewrite Ht2, Ht1, app_assoc; reflexivity |].
      rewrite resolved_app, Hr1. split.
      * exists rest. simpl. rewrite Hp2. reflexivity.
      * intros Hf. simpl. rewrite (Hf2 Hf). reflexivity.
    + exists new1. simpl. split; [exact Ht1 | split].
      * exists (map s_emu_no l). rewrite Hr1. reflexivity.
      * discriminate.
Qed.

(** C5: on every content of [emu_qrcode] that the storage reads without
    error, and for every bureau, the vehicle statement yields one row per
    vehicle of that bureau, carrying the scan code of that vehicle's row
    of least [rowid], in strictly ascending [emu_no] order; and
    [iterVehicles] starts the resolutions exactly in that order (all of
    them when it returns normally, a prefix of them when the process
    stops on the way). *)
Theorem batch_selects_earliest_in_order (tbl : list QrRow) (code : string) :
  StronglySorted sel_lt (select_earliest tbl code) /\
  NoDup (map s_emu_no (select_earliest tbl code)) /\
  (forall v, In v (map s_emu_no (select_earliest tbl code)) <->
             exists r, In r tbl /\ emu_bureau r = code /\ emu_no r = v) /\
  (forall x, In x (select_earliest tbl code) ->
     exists r, In r tbl /\ emu_bureau r = code /\ sel_of r = x /\
       forall r', In r' tbl -> emu_bureau r' = code -> emu_no r' = s_emu_no x ->
                  rowid r <= rowid r') /\
  (forall exec_fault Info nowDate b st,
     Code b = code ->
     exists new,
       trace (snd (iterVehicles (query_of tbl) exec_fault Info nowDate b st)) = trace st ++ new /\
       StronglySorted str_lt (resolved new) /\
       (exists rest, map s_emu_no (select_earliest tbl code) = resolved new ++ rest) /\
       (fst (iterVehicles (query_of tbl) exec_fault Info nowDate b st) = inl tt ->
        resolved new = map s_emu_no (select_earliest tbl code))).
Proof.
  destruct (select_earliest_spec tbl code) as [Hs [Hnd [Hkeys Hmin]]].
  split; [exact Hs | split; [exact Hnd | split; [exact Hkeys | split; [exact Hmin |]]]].
  intros exec_fault Info nowDate b st Hb. subst code.
  set (st1 := {| emu_log := emu_log st; trace := trace st ++ [EInfo ("job started: " ++ Code b)] |}).
  assert (Hunf : iterVehicles (query_of tbl) exec_fault Info nowDate b st =
    match vehicles_loop exec_fault Info nowDate b (cursor_of (select_earliest tbl (Code b))) st1 with
    | (inl _, s') => (inl tt, {| emu_log := emu_log s';
                                trace := trace s' ++ [EInfo ("job done: " ++ Code b)] |})
    | (inr h, s') => (inr h, s')
    end) by reflexivity.
  rewrite Hunf.
  destruct (vehicles_loop_resolved exec_fault Info nowDate b (select_earliest tbl (Code b)) st1)
    as [new [Ht [[rest Hp] Hf]]].
  assert (Hsorted : StronglySorted str_lt (resolved new)).
  { apply (StronglySorted_app_l str_lt _ rest). rewrite <- Hp.
    apply StronglySorted_map_key. exact Hs. }
  destruct (vehicles_loop exec_fault Info nowDate b (cursor_of (select_earliest tbl (Code b))) st1)
    as [res st2] eqn:E.
  simpl in Ht, Hf. destruct res as [[] | h]; simpl.
  - exists ([EInfo ("job started: " ++ Code b)] ++ new ++ [EInfo ("job done: " ++ Code b)]).
    rewrite !resolved_app. simpl. rewrite app_nil_r.
    split; [rewrite Ht; unfold st1; simpl; rewrite <- !app_assoc; reflexivity |].
    split; [exact Hsorted | split; [exists rest; exact Hp |]].
    intros _. apply Hf. reflexivity.
  - exists ([EInfo ("job started: " ++ Code b)] ++ new).
    rewrite !resolved_app. simpl.
    split; [rewrite Ht; unfold st1; simpl; rewrite <- !app_assoc; reflexivity |].
    split; [exact Hsorted | split; [exists rest; exact Hp | discriminate]].
Qed.

(** *** Further properties of the runner *)

(** [grows t0 t]: [t] keeps every row of [t0], keeps the table free of
    duplicates, and each row it adds has a non-empty train number. *)
Definition grows (t0 t : list LogRecord) : Prop :=
  (NoDup t0 -> NoDup t) /\ incl t0 t /\
  (forall x, In x t -> ~ In x t0 -> trainNo x <> ""%string).

(** The cursor of the same rows with a failing step at the end replaced
    by the normal end. *)
Fixpoint end_ok (c : cursor) : cursor :=
  match c with
  | CDone => CDone
  | CErr _ => CDone
  | CRow r rest => CRow r (end_ok rest)
  end.

(** A [db.Query] that fails, and a [db.Exec] that fails on every row. *)
Definition query_down (_ : string) : error + cursor := inl "no such table: emu_qrcode"%string.
Definition exec_locked (_ : LogRecord) : option error := Some "database is locked"%string.

(** The [emu_qrcode] content used below: two scan codes of one vehicle. *)
Definition qr_table : list QrRow :=
  [{| rowid := 1; emu_no := "CRH1-001"; emu_bureau := "H"; emu_qrcode := "PQ0001" |};
   {| rowid := 2; emu_no := "CRH1-001"; emu_bureau := "H"; emu_qrcode := "PQ0002" |}].

Lemma grows_refl (t : list LogRecord) : grows t t.
Proof. split; [auto | split; [intros x Hx; exact Hx | intros x Hx Hn; contradiction]]. Qed.

Lemma grows_trans (t0 t1 t2 : list LogRecord) : grows t0 t1 -> grows t1 t2 -> grows t0 t2.
Proof.
  intros [N1 [I1 F1]] [N2 [I2 F2]]. split; [auto | split].
  - intros x Hx. apply I2, I1, Hx.
  - intros x Hx Hn. destruct (in_dec LogRecord_eq_dec x t1) as [H1 | H1].
    + apply F1; assumption.
    + apply F2; assumption.
Qed.

Lemma grows_insert (r : LogRecord) (t : list LogRecord) :
  trainNo r <> ""%string -> grows t (snd (insert_or_ignore r t)).
Proof.
  intros Hr. split; [apply insert_or_ignore_NoDup | split].
  - intros x Hx. unfold insert_or_ignore. destruct existsb; simpl; [exact Hx |].
    apply in_or_app. left. exact Hx.
  - intros x Hx Hn. unfold insert_or_ignore in Hx. destruct existsb; simpl in Hx; [contradiction |].
    apply in_app_or in Hx. destruct Hx as [Hx | [<- | []]]; [contradiction | exact Hr].
Qed.

Lemma vehicle_step_grows (exec_fault : LogRecord -> option error)
  (Info : string -> InfoResult) (nowDate : string) (b : Bureau) (raw : list sqlvalue) (st : St) :
  grows (emu_log st) (emu_log (snd (vehicle_step exec_fault Info nowDate b raw st))).
Proof.
  unfold vehicle_step. destruct (scan3 raw) as [[e|] [[emu qr] i]];
    unfold bind, checkFatal, emit, os_exit, ret; simpl; [apply grows_refl |].
  unfold run_go. destruct (TrainNo b Info nowDate qr) as [[[t d] e'] | msg]; simpl;
    [| apply grows_refl].
  destruct (String.eqb t "") eqn:Et; simpl; [apply grows_refl |].
  apply String.eqb_neq in Et.
  unfold exec_insert. destruct (exec_fault {| date := d; emuNo := emu; trainNo := t |}); simpl;
    [unfold bind, os_exit; simpl; apply grows_refl |].
  assert (Hg := grows_insert {| date := d; emuNo := emu; trainNo := t |} (emu_log st) Et).
  destruct (insert_or_ignore {| date := d; emuNo := emu; trainNo := t |} (emu_log st))
    as [e0 tbl] eqn:Ei.
  destruct e0; unfold bind, os_exit, ret; simpl; exact Hg.
Qed.

Lemma vehicles_loop_grows (exec_fault : LogRecord -> option error)
  (Info : string -> InfoResult) (nowDate : string) (b : Bureau) (c : cursor) :
  forall st, grows (emu_log st) (emu_log (snd (vehicles_loop exec_fault Info nowDate b c st))).
Proof.
  induction c as [| e | raw rest IH]; intros st; simpl; try apply grows_refl.
  pose proof (vehicle_step_grows exec_fault Info nowDate b raw st) as Hs.
  unfold bind. destruct (vehicle_step exec_fault Info nowDate b raw st) as [[u | h] st1];
    simpl in *; [| exact Hs].
  eapply grows_trans; [exact Hs | apply IH].
Qed.

Lemma vehicle_step_ok (exec_fault : LogRecord -> option error)
  (Info : string -> InfoResult) (nowDate : string) (b : Bureau) (s : Sel) (st : St) :
  (forall qr, is_panic (TrainNo b Info nowDate qr) = false) ->
  (forall r, exec_fault r = None) ->
  fst (vehicle_step exec_fault Info nowDate b (sel_row s) st) = inl tt.
Proof.
  intros Hp Hf. unfold vehicle_step, sel_row. simpl.
  unfold bind, checkFatal, emit, ret, run_go. simpl.
  specialize (Hp (s_qrcode s)).
  destruct (TrainNo b Info nowDate (s_qrcode s)) as [[[t d] e] | msg]; [| discriminate].
  simpl. destruct (String.eqb t ""); simpl; [reflexivity |].
  unfold exec_insert. rewrite Hf.
  destruct (insert_or_ignore {| date := d; emuNo := s_emu_no s; trainNo := t |} (emu_log st))
    as [e0 tbl] eqn:Ei.
  assert (He0 : e0 = None).
  { unfold insert_or_ignore in Ei. destruct existsb; inversion Ei; reflexivity. }
  subst e0. simpl. rewrite Ei. reflexivity.
Qed.

Lemma vehicles_loop_ok (exec_fault : LogRecord -> option error)
  (Info : string -> InfoResult) (nowDate : string) (b : Bureau) (l : list Sel) :
  (forall qr, is_panic (TrainNo b Info nowDate qr) = false) ->
  (forall r, exec_fault r = None) ->
  forall st, fst (vehicles_loop exec_fault Info nowDate b (cursor_of l) st) = inl tt.
Proof.
  intros Hp Hf. induction l as [| s l IH]; intros st; simpl; [reflexivity |].
  pose proof (vehicle_step_ok exec_fault Info nowDate b s st Hp Hf) as Hs.
  unfold bind. destruct (vehicle_step exec_fault Info nowDate b (sel_row s) st) as [[u | h] st1];
    simpl in Hs; [apply IH | discriminate].
Qed.

(** A failing [db.Query] of the vehicle statement ends the process with
    status 1 right after the "job started" line and the fatal message;
    no vehicle is resolved and [emu_log] is unchanged. *)
Theorem iterVehicles_query_error (query : string -> error + cursor)
  (exec_fault : LogRecord -> option error) (Info : string -> InfoResult)
  (nowDate : string) (b : Bureau) (st : St) (e : error) (Hq : query (Code b) = inl e) :
  iterVehicles query exec_fault Info nowDate b st =
  (inr (Exit 1), {| emu_log := emu_log st;
                    trace := trace st ++ [EInfo ("job started: " ++ Code b); EFatal e] |}).
Proof.
  unfold iterVehicles. unfold bind at 1. unfold emit at 1. rewrite Hq.
  unfold checkFatal, bind, emit, os_exit. simpl. rewrite <- app_assoc. reflexivity.
Qed.

Lemma iterVehicles_query_error_witness :
  query_down (Code bureau_P) = inl "no such table: emu_qrcode"%string /\
  iterVehicles query_down no_fault info_G101 "2024-05-01" bureau_P st0 =
  (inr (Exit 1), {| emu_log := [];
                    trace := [EInfo "job started: P"; EFatal "no such table: emu_qrcode"] |}).
Proof.
  assert (Hq : query_down (Code bureau_P) = inl "no such table: emu_qrcode"%string) by reflexivity.
  split; [exact Hq |].
  rewrite (iterVehicles_query_error query_down no_fault info_G101 "2024-05-01" bureau_P st0 _ Hq).
  reflexivity.
Defined.

(** A row that [rows.Scan] cannot read into three strings (a NULL
    column, or not three columns) ends the process with status 1 before
    any sleep or request; the rest of the rows is not read. *)
Theorem vehicles_loop_scan_error (exec_fault : LogRecord -> option error)
  (Info : string -> InfoResult) (nowDate : string) (b : Bureau)
  (raw : list sqlvalue) (rest : cursor) (st : St) (e : error) (v : string * string * string)
  (Hs : scan3 raw = (Some e, v)) :
  vehicles_loop exec_fault Info nowDate b (CRow raw rest) st =
  (inr (Exit 1), {| emu_log := emu_log st; trace := trace st ++ [EFatal e] |}).
Proof.
  simpl. unfold vehicle_step. rewrite Hs. destruct v as [[a q] i].
  unfold bind, checkFatal, emit, os_exit. reflexivity.
Qed.

Lemma vehicles_loop_scan_error_witness :
  scan3 [SText "CRH1-001"; SNull; SInt 3]
    = (Some "sql: Scan error on column index 1: converting NULL to string is unsupported"%string,
       (""%string, ""%string, ""%string)) /\
  vehicles_loop no_fault info_G101 "2024-05-01" bureau_H
    (CRow [SText "CRH1-001"; SNull; SInt 3] CDone) st0 =
  (inr (Exit 1),
   {| emu_log := [];
      trace := [EFatal "sql: Scan error on column index 1: converting NULL to string is unsupported"] |}).
Proof.
  assert (Hs : scan3 [SText "CRH1-001"; SNull; SInt 3]
    = (Some "sql: Scan error on column index 1: converting NULL to string is unsupported"%string,
       (""%string, ""%string, ""%string))) by reflexivity.
  split; [exact Hs |].
  rewrite (vehicles_loop_scan_error no_fault info_G101 "2024-05-01" bureau_H _ CDone st0 _ _ Hs).
  reflexivity.
Defined.

(** A failing [db.Exec] of the insert ends the process with status 1
    right after it; [emu_log] is unchanged and the rest of the rows is
    not read. *)
Theorem vehicles_loop_exec_error (exec_fault : LogRecord -> option error)
  (Info : string -> InfoResult) (nowDate : string) (b : Bureau)
  (raw : list sqlvalue) (rest : cursor) (st : St)
  (emu qr id t d : string) (err : option error) (e : error)
  (Hs : scan3 raw = (None, (emu, qr, id)))
  (Hr : TrainNo b Info nowDate qr = Ret (t, d, err))
  (Ht : t <> ""%string)
  (Hf : exec_fault {| date := d; emuNo := emu; trainNo := t |} = Some e) :
  vehicles_loop exec_fault Info nowDate b (CRow raw rest) st =
  (inr (Exit 1),
   {| emu_log := emu_log st;
      trace := trace st ++ [ESleep Sched.requestDelay; EResolve emu qr;
                            EDebug (emu ++ ": " ++ Code b ++ "/" ++ t);
                            EExec {| date := d; emuNo := emu; trainNo := t |}; EFatal e] |}).
Proof.
  simpl. unfold vehicle_step. rewrite Hs.
  unfold bind, checkFatal, emit, ret, run_go. rewrite Hr.
  apply String.eqb_neq in Ht. rewrite Ht. simpl.
  unfold exec_insert. rewrite Hf. unfold bind, os_exit. simpl.
  rewrite <- !app_assoc. reflexivity.
Qed.

Lemma vehicles_loop_exec_error_witness :
  scan3 [SText "CRH1-001"; SText "PQ0001"; SInt 1]
    = (None, ("CRH1-001"%string, "PQ0001"%string, "1"%string)) /\
  TrainNo bureau_H info_G101 "2024-05-01" "PQ0001"
    = Ret ("G101"%string, "2024-05-01"%string, None) /\
  "G101"%string <> ""%string /\
  exec_locked log_G101 = Some "database is locked"%string /\
  vehicles_loop exec_locked info_G101 "2024-05-01" bureau_H
    (CRow [SText "CRH1-001"; SText "PQ0001"; SInt 1]
          (CRow [SText "CRH1-002"; SText "PQ0002"; SInt 2] CDone)) st0 =
  (inr (Exit 1),
   {| emu_log := [];
      trace := [ESleep Sched.requestDelay; EResolve "CRH1-001" "PQ0001";
                EDebug "CRH1-001: H/G101"; EExec log_G101; EFatal "database is locked"] |}).
Proof.
  assert (Hs : scan3 [SText "CRH1-001"; SText "PQ0001"; SInt 1]
    = (None, ("CRH1-001"%string, "PQ0001"%string, "1"%string))) by reflexivity.
  assert (Hr : TrainNo bureau_H info_G101 "2024-05-01" "PQ0001"
    = Ret ("G101"%string, "2024-05-01"%string, None)) by reflexivity.
  assert (Ht : "G101"%string <> ""%string) by discriminate.
  assert (Hf : exec_locked {| date := "2024-05-01"; emuNo := "CRH1-001"; trainNo := "G101" |}
    = Some "database is locked"%string) by reflexivity.
  split; [exact Hs | split; [exact Hr | split; [exact Ht | split; [exact Hf |]]]].
  rewrite (vehicles_loop_exec_error exec_locked info_G101 "2024-05-01" bureau_H _ _ st0
             _ _ _ _ _ _ _ Hs Hr Ht Hf).
  reflexivity.
Defined.

(** A panic of [TrainNo] (a malformed provider response) crashes the
    process right after the request: nothing is inserted for that row and
    the rest of the rows is not read. *)
Theorem vehicles_loop_panic (exec_fault : LogRecord -> option error)
  (Info : string -> InfoResult) (nowDate : string) (b : Bureau)
  (raw : list sqlvalue) (rest : cursor) (st : St) (emu qr id msg : string)
  (Hs : scan3 raw = (None, (emu, qr, id)))
  (Hr : TrainNo b Info nowDate qr = Panic msg) :
  vehicles_loop exec_fault Info nowDate b (CRow raw rest) st =
  (inr (Crash ("panic: " ++ msg)),
   {| emu_log := emu_log st;
      trace := trace st ++ [ESleep Sched.requestDelay; EResolve emu qr] |}).
Proof.
  simpl. unfold vehicle_step. rewrite Hs.
  unfold bind, checkFatal, emit, ret, run_go. rewrite Hr. simpl.
  rewrite <- !app_assoc. reflexivity.
Qed.

Lemma vehicles_loop_panic_witness :
  scan3 [SText "CRH1-001"; SText "PQ0001"; SInt 1]
    = (None, ("CRH1-001"%string, "PQ0001"%string, "1"%string)) /\
  TrainNo bureau_H info_empty "2024-05-01" "PQ0001"
    = Panic "interface conversion: interface {} is nil, not string" /\
  vehicles_loop no_fault info_empty "2024-05-01" bureau_H
    (CRow [SText "CRH1-001"; SText "PQ0001"; SInt 1] CDone) st0 =
  (inr (Crash "panic: interface conversion: interface {} is nil, not string"),
   {| emu_log := []; trace := [ESleep Sched.requestDelay; EResolve "CRH1-001" "PQ0001"] |}).
Proof.
  assert (Hs : scan3 [SText "CRH1-001"; SText "PQ0001"; SInt 1]
    = (None, ("CRH1-001"%string, "PQ0001"%string, "1"%string))) by reflexivity.
  assert (Hr : TrainNo bureau_H info_empty "2024-05-01" "PQ0001"
    = Panic "interface conversion: interface {} is nil, not string") by reflexivity.
  split; [exact Hs | split; [exact Hr |]].
  rewrite (vehicles_loop_panic no_fault info_empty "2024-05-01" bureau_H _ CDone st0
             _ _ _ _ Hs Hr).
  reflexivity.
Defined.

(** Whatever the storage, the providers and the rows, a run of
    [iterVehicles] (finished or stopped on the way) never removes a row
    of [emu_log], keeps it free of duplicates, and only adds rows with a
    non-empty train number. *)
Theorem iterVehicles_log_invariant (query : string -> error + cursor)
  (exec_fault : LogRecord -> option error) (Info : string -> InfoResult)
  (nowDate : string) (b : Bureau) (st : St) (Hnd : NoDup (emu_log st)) :
  NoDup (emu_log (snd (iterVehicles query exec_fault Info nowDate b st))) /\
  incl (emu_log st) (emu_log (snd (iterVehicles query exec_fault Info nowDate b st))) /\
  (forall x, In x (emu_log (snd (iterVehicles query exec_fault Info nowDate b st))) ->
             ~ In x (emu_log st) -> trainNo x <> ""%string).
Proof.
  assert (G : grows (emu_log st) (emu_log (snd (iterVehicles query exec_fault Info nowDate b st)))).
  { unfold iterVehicles. unfold bind at 1. unfold emit at 1.
    destruct (query (Code b)) as [e | rows].
    - unfold checkFatal, bind, emit, os_exit. simpl. apply grows_refl.
    - unfold checkFatal, ret, bind at 1.
      set (st1 := {| emu_log := emu_log st; trace := trace st ++ [EInfo ("job started: " ++ Code b)] |}).
      pose proof (vehicles_loop_grows exec_fault Info nowDate b rows st1) as Hl.
      unfold bind.
      destruct (vehicles_loop exec_fault Info nowDate b rows st1) as [[u | h] st2];
        simpl in *; exact Hl. }
  destruct G as [N [I F]]. split; [apply N, Hnd | split; [exact I | exact F]].
Qed.

Lemma iterVehicles_log_invariant_witness :
  NoDup (emu_log st0) /\
  NoDup (emu_log (snd (iterVehicles (query_of qr_table) no_fault info_G101 "2024-05-01" bureau_H st0))) /\
  incl (emu_log st0)
       (emu_log (snd (iterVehicles (query_of qr_table) no_fault info_G101 "2024-05-01" bureau_H st0))) /\
  (forall x, In x (emu_log (snd (iterVehicles (query_of qr_table) no_fault info_G101 "2024-05-01" bureau_H st0))) ->
             ~ In x (emu_log st0) -> trainNo x <> ""%string).
Proof.
  assert (H : NoDup (emu_log st0)) by constructor.
  split; [exact H | apply (iterVehicles_log_invariant (query_of qr_table) no_fault info_G101 _ _ st0 H)].
Defined.

(** When the storage answers without errors and the bureau's resolver
    does not panic on any scan code, [iterVehicles] returns normally: it
    never stops the process. *)
Theorem iterVehicles_completes (tbl : list QrRow) (exec_fault : LogRecord -> option error)
  (Info : string -> InfoResult) (nowDate : string) (b : Bureau) (st : St)
  (Hp : forall qr, is_panic (TrainNo b Info nowDate qr) = false)
  (Hf : forall r, exec_fault r = None) :
  fst (iterVehicles (query_of tbl) exec_fault Info nowDate b st) = inl tt.
Proof.
  set (st1 := {| emu_log := emu_log st; trace := trace st ++ [EInfo ("job started: " ++ Code b)] |}).
  assert (Hunf : iterVehicles (query_of tbl) exec_fault Info nowDate b st =
    match vehicles_loop exec_fault Info nowDate b (cursor_of (select_earliest tbl (Code b))) st1 with
    | (inl _, s') => (inl tt, {| emu_log := emu_log s';
                                trace := trace s' ++ [EInfo ("job done: " ++ Code b)] |})
    | (inr h, s') => (inr h, s')
    end) by reflexivity.
  rewrite Hunf.
  pose proof (vehicles_loop_ok exec_fault Info nowDate b (select_earliest tbl (Code b)) Hp Hf st1) as Hl.
  destruct (vehicles_loop exec_fault Info nowDate b (cursor_of (select_earliest tbl (Code b))) st1)
    as [[u | h] st2]; simpl in *; [reflexivity | discriminate].
Qed.

Lemma iterVehicles_completes_witness :
  (forall qr, is_panic (TrainNo bureau_H info_G101 "2024-05-01" qr) = false) /\
  (forall r, no_fault r = None) /\
  fst (iterVehicles (query_of qr_table) no_fault info_G101 "2024-05-01" bureau_H st0) = inl tt.
Proof.
  assert (Hp : forall qr, is_panic (TrainNo bureau_H info_G101 "2024-05-01" qr) = false)
    by (intros; reflexivity).
  assert (Hf : forall r, no_fault r = None) by (intros; reflexivity).
  split; [exact Hp | split; [exact Hf |]].
  apply (iterVehicles_completes qr_table no_fault info_G101 _ bureau_H st0 Hp Hf).
Defined.

(** [rows.Err] is never consulted: a vehicle statement whose step fails
    after some rows gives exactly the same run (log lines, inserts,
    outcome) as a statement that ends normally after those rows. *)
Theorem iterVehicles_ignores_step_error (c : cursor)
  (exec_fault : LogRecord -> option error) (Info : string -> InfoResult)
  (nowDate : string) (b : Bureau) (st : St) :
  iterVehicles (fun _ => inr c) exec_fault Info nowDate b st =
  iterVehicles (fun _ => inr (end_ok c)) exec_fault Info nowDate b st.
Proof.
  assert (L : forall c st, vehicles_loop exec_fault Info nowDate b c st =
                           vehicles_loop exec_fault Info nowDate b (end_ok c) st).
  { induction c0 as [| e | raw rest IH]; intros st'; simpl; try reflexivity.
    unfold bind. destruct (vehicle_step exec_fault Info nowDate b raw st') as [[u | h] st1];
      [apply IH | reflexivity]. }
  unfold iterVehicles, bind, emit, checkFatal, ret. cbv beta iota.
  rewrite L. reflexivity.
Qed.

End Batch.

(** ** The start-up checks of [main]

    [checkLocalTimezone], [checkInternetConnection] and [checkDatabase]
    with [countRecords] (lines 188-244). The database file is seen as its
    tables, each with its name and number of rows; SQLite compares table
    names without regard to ASCII case. The storage faults of each
    statement, the answer of the probe [bureaus[0].Info] and the clock
    readings are inputs. *)
Module Startup.

Import Resolver.

(** Lines of the console log. *)
Inductive line : Type :=
| LWarn (msg : string)
| LInfo (msg : string)
| LFatal (msg : string).

Record Proc : Type := {
  tables : list (string * Z);
  out : list line
}.

Definition SM (A : Type) : Type := Proc -> (A + Batch.halt) * Proc.

Definition sret {A : Type} (a : A) : SM A := fun p => (inl a, p).

Definition sbind {A B : Type} (m : SM A) (k : A -> SM B) : SM B :=
  fun p => match m p with
           | (inl a, p') => k a p'
           | (inr h, p') => (inr h, p')
           end.

Notation "x <-: m ;; k" := (sbind m (fun x => k)) (at level 61, m at next level, right associativity).
Notation "m ;;: k" := (sbind m (fun _ => k)) (at level 61, right associativity).

Definition say (l : line) : SM unit :=
  fun p => (inl tt, {| tables := tables p; out := out p ++ [l] |}).

Definition exit1 {A : Type} : SM A := fun p => (inr (Batch.Exit 1), p).

(** [checkFatal] (lines 182-186). *)
Definition checkFatal (err : option error) : SM unit :=
  match err with
  | None => sret tt
  | Some e => say (LFatal e) ;;: exit1
  end.

(** Go's [int] (64 bits) arithmetic. *)
Definition wrap64 (z : Z) : Z := (z + 2 ^ 63) mod 2 ^ 64 - 2 ^ 63.

(** [appendInt(b, x, 2)]: at least two digits. *)
Definition pad2 (x : Z) : string :=
  if x <? 10 then ("0" ++ Batch.Z_dec x)%string else Batch.Z_dec x.

(** [t.Format("-07")]: the sign and the whole hours of the offset
    (Go's [/] truncates towards zero). *)
Definition format_07 (off : Z) : string :=
  let zone := Z.quot off 60 in
  if zone <? 0 then ("-" ++ pad2 (Z.quot (- zone) 60))%string
  else ("+" ++ pad2 (Z.quot zone 60))%string.

(** ASCII case folding of SQLite identifiers. *)
Definition lower_ascii (c : ascii) : ascii :=
  let n := nat_of_ascii c in
  if (Nat.leb 65 n && Nat.leb n 90)%bool then ascii_of_nat (n + 32) else c.

Fixpoint lower (s : string) : string :=
  match s with
  | EmptyString => EmptyString
  | String c s' => String (lower_ascii c) (lower s')
  end.

Definition name_eqb (a b : string) : bool := String.eqb (lower a) (lower b).

(** The number of rows of the table [name], if there is such a table. *)
Fixpoint table_rows (tbls : list (string * Z)) (name : string) : option Z :=
  match tbls with
  | [] => None
  | (n, k) :: t => if name_eqb n name then Some k else table_rows t name
  end.

(** The tables after [CREATE TABLE IF NOT EXISTS name]: a new empty table
    unless one of that name exists, whatever its columns. *)
Definition ensure (tbls : list (string * Z)) (name : string) : list (string * Z) :=
  match table_rows tbls name with
  | Some _ => tbls
  | None => tbls ++ [(name, 0)]
  end.

Definition rows_of (tbls : list (string * Z)) (name : string) : Z :=
  match table_rows tbls name with Some k => k | None => 0 end.

Section Boot.

(** [time.Now().Zone()]; the probe [bureaus[0].Info]; the round-trip
    delay as [%v] prints it; the faults of [sql.Open], of the two
    [CREATE TABLE] statements (by table) and of the two counts. *)
Variable off : Z.
Variable tzName : string.
Variable probe : string -> InfoResult.
Variable rtt : string.
Variable open_err : option error.
Variable exec_fault : string -> option error.
Variable count_fault : string -> option error.

(** [checkLocalTimezone] (lines 188-196). *)
Definition checkLocalTimezone : SM unit :=
  if negb (wrap64 (off * Sched.Second) =? 8 * Sched.Hour) then
    say (LWarn ("expected Beijing Timezone (UTC+08), but found " ++ tzName
                ++ " (UTC" ++ format_07 off ++ ")"))
  else sret tt.

(** [checkInternetConnection] (lines 198-206). *)
Definition checkInternetConnection : SM unit :=
  let '(_, err) := probe "PQ0123456"%string in
  checkFatal err ;;:
  say (LInfo ("internet connection ok, round-trip delay " ++ rtt)).

(** [db.Exec] of [CREATE TABLE IF NOT EXISTS name (...)]. *)
Definition create_table (name : string) : SM (option error) :=
  fun p => match exec_fault name with
           | Some e => (inl (Some e), p)
           | None => (inl None, {| tables := ensure (tables p) name; out := out p |})
           end.

(** [countRecords] (lines 239-244). *)
Definition countRecords (tableName : string) : SM Z :=
  fun p =>
    let '(err, count) :=
      match count_fault tableName with
      | Some e => (Some e, 0)
      | None =>
          match table_rows (tables p) tableName with
          | Some n => (None, n)
          | None => (Some ("no such table: " ++ tableName)%string, 0)
          end
      end in
    (checkFatal err ;;: sret count) p.

(** [checkDatabase] (lines 208-237). *)
Definition checkDatabase : SM unit :=
  checkFatal open_err ;;:
  err <-: create_table "emu_log"%string ;;
  checkFatal err ;;:
  n <-: countRecords "emu_log"%string ;;
  say (LInfo ("found " ++ Batch.Z_dec n ++ " log records in database")) ;;:
  err2 <-: create_table "emu_qrcode"%string ;;
  checkFatal err2 ;;:
  m <-: countRecords "emu_qrcode"%string ;;
  say (LInfo ("found " ++ Batch.Z_dec m ++ " qr code records in database")).

(** The first three statements of [main]. *)
Definition startup : SM unit :=
  checkLocalTimezone ;;: checkInternetConnection ;;: checkDatabase.

End Boot.

(** *** Tables *)

Lemma name_eqb_refl (a : string) : name_eqb a a = true.
Proof. unfold name_eqb. apply String.eqb_refl. Qed.

Lemma table_rows_app (t u : list (string * Z)) (name : string) :
  table_rows (t ++ u) name =
  match table_rows t name with Some k => Some k | None => table_rows u name end.
Proof.
  induction t as [| [n k] t IH]; simpl; [reflexivity |].
  destruct (name_eqb n name); [reflexivity | exact IH].
Qed.

Lemma ensure_keeps (t : list (string * Z)) (m n : string) (k : Z) :
  table_rows t n = Some k -> table_rows (ensure t m) n = Some k.
Proof.
  intros H. unfold ensure. destruct (table_rows t m); [exact H |].
  rewrite table_rows_app, H. reflexivity.
Qed.

Lemma ensure_has (t : list (string * Z)) (m : string) :
  exists k, table_rows (ensure t m) m = Some k.
Proof.
  unfold ensure. destruct (table_rows t m) as [k |] eqn:E; [exists k; exact E |].
  exists 0. rewrite table_rows_app, E. simpl. rewrite name_eqb_refl. reflexivity.
Qed.

Lemma ensure_idem (t : list (string * Z)) (m : string) (k : Z) :
  table_rows t m = Some k -> ensure t m = t.
Proof. intros H. unfold ensure. rewrite H. reflexivity. Qed.

Lemma ensure_new (t : list (string * Z)) (m : string) :
  table_rows t m = None -> table_rows (ensure t m) m = Some 0.
Proof.
  intros H. unfold ensure. rewrite H, table_rows_app, H. simpl.
  rewrite name_eqb_refl. reflexivity.
Qed.

Lemma ensure_other (t : list (string * Z)) (m n : string) :
  table_rows t n = None -> name_eqb m n = false -> table_rows (ensure t m) n = None.
Proof.
  intros H Hmn. unfold ensure. destruct (table_rows t m); [exact H |].
  rewrite table_rows_app, H. simpl. rewrite Hmn. reflexivity.
Qed.

(** *** Programs that only append to the log *)

Definition appends {A : Type} (m : SM A) : Prop :=
  forall q, exists r, out (snd (m q)) = out q ++ r.

Lemma sret_appends {A : Type} (a : A) : appends (sret a).
Proof. intros q. exists []. rewrite app_nil_r. reflexivity. Qed.

Lemma say_appends (l : line) : appends (say l).
Proof. intros q. exists [l]. reflexivity. Qed.

Lemma exit1_appends {A : Type} : appends (@exit1 A).
Proof. intros q. exists []. rewrite app_nil_r. reflexivity. Qed.

Lemma sbind_appends {A B : Type} (m : SM A) (k : A -> SM B) :
  appends m -> (forall a, appends (k a)) -> appends (sbind m k).
Proof.
  intros Hm Hk q. unfold sbind.
  destruct (Hm q) as [r1 H1].
  destruct (m q) as [[a | h] q'] eqn:E; simpl in H1.
  - destruct (Hk a q') as [r2 H2]. exists (r1 ++ r2). rewrite H2, H1, app_assoc. reflexivity.
  - exists r1. exact H1.
Qed.

Lemma checkFatal_appends (err : option error) : appends (checkFatal err).
Proof.
  destruct err as [e |]; simpl;
    [apply sbind_appends; [apply say_appends | intros; apply exit1_appends] | apply sret_appends].
Qed.

Lemma create_table_appends (exec_fault : string -> option error) (name : string) :
  appends (create_table exec_fault name).
Proof.
  intros q. exists []. rewrite app_nil_r. unfold create_table.
  destruct (exec_fault name); reflexivity.
Qed.

Lemma countRecords_appends (count_fault : string -> option error) (name : string) :
  appends (countRecords count_fault name).
Proof.
  intros q. unfold countRecords.
  destruct (match count_fault name with
            | Some e => (Some e, 0)
            | None => match table_rows (tables q) name with
                      | Some n => (None, n)
                      | None => (Some ("no such table: " ++ name)%string, 0)
                      end
            end) as [err count].
  apply (sbind_appends _ _ (checkFatal_appends err) (fun _ => sret_appends count)).
Qed.

Lemma checkDatabase_appends (open_err : option error) (exec_fault count_fault : string -> option error) :
  appends (checkDatabase open_err exec_fault count_fault).
Proof.
  unfold checkDatabase.
  repeat first [ apply sbind_appends | intros ? | apply checkFatal_appends | apply say_appends
               | apply create_table_appends | apply countRecords_appends ].
Qed.

(** *** The checks one by one *)

Lemma checkLocalTimezone_only_warns (off : Z) (tzName : string) (p : Proc) :
  exists w, checkLocalTimezone off tzName p = (inl tt, {| tables := tables p; out := out p ++ w |}).
Proof.
  unfold checkLocalTimezone. destruct (negb _).
  - eexists. reflexivity.
  - exists []. unfold sret. rewrite app_nil_r. destruct p. reflexivity.
Qed.

(** For an offset within a day, [checkLocalTimezone] writes its warning
    exactly when the offset is not eight hours. *)
Lemma checkLocalTimezone_run (off : Z) (tzName : string) (p : Proc) :
  -86400 <= off <= 86400 ->
  checkLocalTimezone off tzName p =
  if off =? 8 * 3600 then (inl tt, p)
  else (inl tt, {| tables := tables p;
                   out := out p ++ [LWarn ("expected Beijing Timezone (UTC+08), but found " ++ tzName
                                           ++ " (UTC" ++ format_07 off ++ ")")] |}).
Proof.
  intros Hb. unfold checkLocalTimezone.
  assert (Hw : wrap64 (off * Sched.Second) = off * Sched.Second).
  { unfold wrap64, Sched.Second, Sched.Nanosecond.
    change (2 ^ 63) with 9223372036854775808. change (2 ^ 64) with 18446744073709551616.
    rewrite Z.mod_small by lia. lia. }
  rewrite Hw. destruct (Z.eqb_spec off (8 * 3600)) as [E | N].
  - subst off. destruct p. reflexivity.
  - assert (Hn : (off * Sched.Second =? 8 * Sched.Hour) = false).
    { apply Z.eqb_neq. unfold Sched.Hour, Sched.Minute, Sched.Second, Sched.Nanosecond. lia. }
    rewrite Hn. reflexivity.
Qed.

Lemma checkInternetConnection_run (probe : string -> InfoResult) (rtt : string) (p : Proc) :
  checkInternetConnection probe rtt p =
  match snd (probe "PQ0123456"%string) with
  | None => (inl tt, {| tables := tables p;
                        out := out p ++ [LInfo ("internet connection ok, round-trip delay " ++ rtt)] |})
  | Some e => (inr (Batch.Exit 1), {| tables := tables p; out := out p ++ [LFatal e] |})
  end.
Proof.
  unfold checkInternetConnection. destruct (probe "PQ0123456"%string) as [i [e |]]; reflexivity.
Qed.

Lemma countRecords_present (count_fault : string -> option error) (name : string) (p : Proc) (k : Z) :
  count_fault name = None -> table_rows (tables p) name = Some k ->
  countRecords count_fault name p = (inl k, p).
Proof. intros Hf Ht. unfold countRecords. rewrite Hf, Ht. reflexivity. Qed.

Lemma countRecords_fault (count_fault : string -> option error) (name : string) (p : Proc) (e : error) :
  count_fault name = Some e ->
  countRecords count_fault name p = (inr (Batch.Exit 1), {| tables := tables p; out := out p ++ [LFatal e] |}).
Proof. intros Hf. unfold countRecords. rewrite Hf. reflexivity. Qed.

Lemma checkDatabase_outcome (open_err : option error) (exec_fault count_fault : string -> option error)
  (p : Proc) :
  (fst (checkDatabase open_err exec_fault count_fault p) = inl tt <->
   open_err = None /\ exec_fault "emu_log"%string = None /\ count_fault "emu_log"%string = None /\
   exec_fault "emu_qrcode"%string = None /\ count_fault "emu_qrcode"%string = None) /\
  (fst (checkDatabase open_err exec_fault count_fault p) = inl tt \/
   fst (checkDatabase open_err exec_fault count_fault p) = inr (Batch.Exit 1)).
Proof.
  unfold checkDatabase, sbind, checkFatal, sret, exit1, say, create_table.
  destruct open_err as [e |]; cbn -[countRecords].
  { split; [split; [discriminate | intros [H _]; discriminate] | right; reflexivity]. }
  destruct (exec_fault "emu_log"%string) as [e |] eqn:E1; cbn -[countRecords].
  { split; [split; [discriminate | intros [_ [H _]]; discriminate] | right; reflexivity]. }
  destruct (count_fault "emu_log"%string) as [e |] eqn:C1.
  { rewrite (countRecords_fault count_fault "emu_log" _ e C1). cbn.
    split; [split; [discriminate | intros [_ [_ [H _]]]; discriminate] | right; reflexivity]. }
  destruct (ensure_has (tables p) "emu_log") as [k1 Hk1].
  rewrite (countRecords_present count_fault "emu_log" {| tables := _; out := _ |} k1 C1 Hk1). cbn -[countRecords].
  destruct (exec_fault "emu_qrcode"%string) as [e |] eqn:E2; cbn -[countRecords].
  { split; [split; [discriminate | intros [_ [_ [_ [H _]]]]; discriminate] | right; reflexivity]. }
  destruct (count_fault "emu_qrcode"%string) as [e |] eqn:C2.
  { rewrite (countRecords_fault count_fault "emu_qrcode" _ e C2). cbn.
    split; [split; [discriminate | intros [_ [_ [_ [_ H]]]]; discriminate] | right; reflexivity]. }
  destruct (ensure_has (ensure (tables p) "emu_log") "emu_qrcode") as [k2 Hk2].
  rewrite (countRecords_present count_fault "emu_qrcode" {| tables := _; out := _ |} k2 C2 Hk2). cbn.
  split; [split; [intros _; auto | reflexivity] | left; reflexivity].
Qed.

Lemma startup_split (off : Z) (tzName : string) (probe : string -> InfoResult)
  (rtt : string) (open_err : option error) (exec_fault count_fault : string -> option error)
  (p : Proc) :
  startup off tzName probe rtt open_err exec_fault count_fault p =
  (checkInternetConnection probe rtt ;;: checkDatabase open_err exec_fault count_fault)
    (snd (checkLocalTimezone off tzName p)).
Proof.
  destruct (checkLocalTimezone_only_warns off tzName p) as [w Hw].
  unfold startup. unfold sbind at 1. rewrite Hw. reflexivity.
Qed.

(** After the time zone check, the first line the start-up writes is an
    info line or a fatal one, never a warning. *)
Lemma rest_first_line (probe : string -> InfoResult) (rtt : string) (open_err : option error)
  (exec_fault count_fault : string -> option error) (q : Proc) :
  exists l r,
    out (snd ((checkInternetConnection probe rtt ;;: checkDatabase open_err exec_fault count_fault) q))
      = out q ++ l :: r /\ (forall m, l <> LWarn m).
Proof.
  unfold sbind at 1. rewrite checkInternetConnection_run.
  destruct (snd (probe "PQ0123456"%string)) as [e |].
  - exists (LFatal e), []. split; [reflexivity | intros m; discriminate].
  - destruct (checkDatabase_appends open_err exec_fault count_fault
      {| tables := tables q;
         out := out q ++ [LInfo ("internet connection ok, round-trip delay " ++ rtt)] |}) as [r Hr].
    exists (LInfo ("internet connection ok, round-trip delay " ++ rtt)), r.
    split; [| intros m; discriminate].
    cbv beta iota. rewrite Hr. simpl. rewrite <- app_assoc. reflexivity.
Qed.

(** *** Properties of the start-up *)

(** [main]'s start-up goes on to the scheduler loop exactly when the
    probe of bureau "H" answers without error and every statement of
    [checkDatabase] succeeds; otherwise the process exits with status 1
    (it never panics there). The time zone plays no part in that: for
    an offset within a day, the first line the start-up writes is the
    warning about the zone exactly when the offset is not UTC+08. *)
Theorem startup_outcome (off : Z) (tzName : string) (probe : string -> InfoResult)
  (rtt : string) (open_err : option error) (exec_fault count_fault : string -> option error)
  (p : Proc) :
  (fst (startup off tzName probe rtt open_err exec_fault count_fault p) = inl tt <->
   snd (probe "PQ0123456"%string) = None /\ open_err = None /\
   exec_fault "emu_log"%string = None /\ count_fault "emu_log"%string = None /\
   exec_fault "emu_qrcode"%string = None /\ count_fault "emu_qrcode"%string = None) /\
  (fst (startup off tzName probe rtt open_err exec_fault count_fault p) = inl tt \/
   fst (startup off tzName probe rtt open_err exec_fault count_fault p) = inr (Batch.Exit 1)) /\
  (-86400 <= off <= 86400 ->
   ((exists rest, out (snd (startup off tzName probe rtt open_err exec_fault count_fault p)) =
      out p ++ LWarn ("expected Beijing Timezone (UTC+08), but found " ++ tzName
                      ++ " (UTC" ++ format_07 off ++ ")") :: rest)
    <-> off <> 8 * 3600)).
Proof.
  match goal with
  | |- ?A /\ ?B /\ ?C =>
      cut ((A /\ B) /\ C); [intros [[HA HB] HC]; exact (conj HA (conj HB HC)) | split]
  end.
  2: {
    intros Hb. rewrite startup_split, (checkLocalTimezone_run off tzName p Hb).
    destruct (off =? 8 * 3600) eqn:E.
    - apply Z.eqb_eq in E.
      destruct (rest_first_line probe rtt open_err exec_fault count_fault p) as [l [r [Hlr Hl]]].
      simpl. rewrite Hlr. split; [| intros N; contradiction].
      intros [rest H]. apply app_inv_head in H. injection H as H1 _.
      exfalso. exact (Hl _ H1).
    - apply Z.eqb_neq in E. simpl.
      match goal with
      | |- context [out (snd ((checkInternetConnection probe rtt ;;:
                                checkDatabase open_err exec_fault count_fault) ?q))] =>
          destruct (rest_first_line probe rtt open_err exec_fault count_fault q) as [l [r [Hlr _]]]
      end.
      rewrite Hlr. simpl. split; [intros _; exact E |].
      intros _. exists (l :: r). rewrite <- app_assoc. reflexivity. }
  destruct (checkLocalTimezone_only_warns off tzName p) as [w Hw].
  assert (Hs : startup off tzName probe rtt open_err exec_fault count_fault p =
    match snd (probe "PQ0123456"%string) with
    | Some e => (inr (Batch.Exit 1), {| tables := tables p; out := (out p ++ w) ++ [LFatal e] |})
    | None => checkDatabase open_err exec_fault count_fault
                {| tables := tables p;
                   out := (out p ++ w) ++ [LInfo ("internet connection ok, round-trip delay " ++ rtt)] |}
    end).
  { unfold startup, sbind. rewrite Hw. cbn -[checkInternetConnection checkDatabase].
    rewrite checkInternetConnection_run. cbn -[checkDatabase].
    destruct (snd (probe "PQ0123456"%string)); reflexivity. }
  rewrite Hs.
  destruct (snd (probe "PQ0123456"%string)) as [e |].
  - simpl. split; [split; [discriminate | intros [H _]; discriminate] | right; reflexivity].
  - destruct (checkDatabase_outcome open_err exec_fault count_fault
      {| tables := tables p;
         out := (out p ++ w) ++ [LInfo ("internet connection ok, round-trip delay " ++ rtt)] |})
      as [Hiff Hor].
    split; [rewrite Hiff; split; [intros H; split; [reflexivity | exact H] | intros [_ H]; exact H] |
            exact Hor].
Qed.

(** With no storage faults, [checkDatabase] keeps every existing table
    and its rows, leaves both [emu_log] and [emu_qrcode] present (an
    existing one kept whatever its columns or the case of its name),
    reports the row counts of the two tables, running it again changes
    no table, and a missing [emu_log] or [emu_qrcode] is created with no
    rows. *)
Theorem checkDatabase_keeps_data (open_err : option error)
  (exec_fault count_fault : string -> option error) (p : Proc)
  (Ho : open_err = None) (He : forall n, exec_fault n = None) (Hc : forall n, count_fault n = None) :
  fst (checkDatabase open_err exec_fault count_fault p) = inl tt /\
  (forall name k, table_rows (tables p) name = Some k ->
     table_rows (tables (snd (checkDatabase open_err exec_fault count_fault p))) name = Some k) /\
  table_rows (tables (snd (checkDatabase open_err exec_fault count_fault p))) "emu_log"%string <> None /\
  table_rows (tables (snd (checkDatabase open_err exec_fault count_fault p))) "emu_qrcode"%string <> None /\
  out (snd (checkDatabase open_err exec_fault count_fault p)) =
    out p ++
    [LInfo ("found " ++ Batch.Z_dec (rows_of (tables (snd (checkDatabase open_err exec_fault count_fault p))) "emu_log"%string)
            ++ " log records in database");
     LInfo ("found " ++ Batch.Z_dec (rows_of (tables (snd (checkDatabase open_err exec_fault count_fault p))) "emu_qrcode"%string)
            ++ " qr code records in database")] /\
  tables (snd (checkDatabase open_err exec_fault count_fault
                 (snd (checkDatabase open_err exec_fault count_fault p)))) =
    tables (snd (checkDatabase open_err exec_fault count_fault p)) /\
  (table_rows (tables p) "emu_log"%string = None ->
   table_rows (tables (snd (checkDatabase open_err exec_fault count_fault p))) "emu_log"%string = Some 0) /\
  (table_rows (tables p) "emu_qrcode"%string = None ->
   table_rows (tables (snd (checkDatabase open_err exec_fault count_fault p))) "emu_qrcode"%string = Some 0).
Proof.
  assert (Run : forall q, exists k1 k2,
    table_rows (ensure (tables q) "emu_log"%string) "emu_log"%string = Some k1 /\
    table_rows (ensure (ensure (tables q) "emu_log"%string) "emu_qrcode"%string) "emu_qrcode"%string = Some k2 /\
    checkDatabase open_err exec_fault count_fault q =
    (inl tt, {| tables := ensure (ensure (tables q) "emu_log"%string) "emu_qrcode";
                out := out q ++ [LInfo ("found " ++ Batch.Z_dec k1 ++ " log records in database");
                                 LInfo ("found " ++ Batch.Z_dec k2 ++ " qr code records in database")] |})).
  { intros q.
    destruct (ensure_has (tables q) "emu_log"%string) as [k1 Hk1].
    destruct (ensure_has (ensure (tables q) "emu_log"%string) "emu_qrcode"%string) as [k2 Hk2].
    exists k1, k2. split; [exact Hk1 | split; [exact Hk2 |]].
    subst open_err.
    unfold checkDatabase, sbind, checkFatal, sret, exit1, say, create_table.
    rewrite !He. cbn -[countRecords].
    rewrite (countRecords_present count_fault "emu_log" {| tables := _; out := _ |} k1 (Hc _) Hk1). cbn -[countRecords].
    rewrite (countRecords_present count_fault "emu_qrcode" {| tables := _; out := _ |} k2 (Hc _) Hk2). cbn.
    rewrite <- app_assoc. reflexivity. }
  destruct (Run p) as [k1 [k2 [Hk1 [Hk2 Hp]]]].
  destruct (Run (snd (checkDatabase open_err exec_fault count_fault p))) as [k3 [k4 [_ [_ Hq]]]].
  rewrite Hq, Hp. simpl.
  assert (Hk1' : table_rows (ensure (ensure (tables p) "emu_log"%string) "emu_qrcode"%string) "emu_log"%string = Some k1)
    by (apply ensure_keeps; exact Hk1).
  split; [reflexivity | split; [| split; [| split; [| split; [| split]]]]].
  - intros name k H. apply ensure_keeps, ensure_keeps. exact H.
  - rewrite Hk1'. discriminate.
  - rewrite Hk2. discriminate.
  - unfold rows_of. rewrite Hk1', Hk2. reflexivity.
  -
    rewrite (ensure_idem _ "emu_log"%string k1 Hk1'). rewrite (ensure_idem _ "emu_qrcode"%string k2 Hk2).
    reflexivity.
  - split.
    + intros N. apply ensure_keeps, ensure_new, N.
    + intros N. apply ensure_new, ensure_other; [exact N | reflexivity].
Qed.

(** A database that already has a log table, named in capitals, with
    three rows, and no qr code table. *)
Definition p_old : Proc := {| tables := [("EMU_LOG"%string, 3)]; out := [] |}.

Definition no_sql_fault (_ : string) : option error := None.

Lemma checkDatabase_keeps_data_witness :
  (None : option error) = None /\ (forall n, no_sql_fault n = None) /\
  tables (snd (checkDatabase None no_sql_fault no_sql_fault p_old)) = [("EMU_LOG"%string, 3); ("emu_qrcode"%string, 0)] /\
  out (snd (checkDatabase None no_sql_fault no_sql_fault p_old)) =
    [LInfo "found 3 log records in database"; LInfo "found 0 qr code records in database"] /\
  tables (snd (checkDatabase None no_sql_fault no_sql_fault
                 (snd (checkDatabase None no_sql_fault no_sql_fault p_old)))) =
    tables (snd (checkDatabase None no_sql_fault no_sql_fault p_old)).
Proof.
  assert (Ho : (None : option error) = None) by reflexivity.
  assert (Hf : forall n, no_sql_fault n = None) by (intros; reflexivity).
  destruct (checkDatabase_keeps_data None no_sql_fault no_sql_fault p_old Ho Hf Hf)
    as [_ [_ [_ [_ [Hout [Hid _]]]]]].
  split; [exact Ho | split; [exact Hf | split; [reflexivity | split; [rewrite Hout; reflexivity | exact Hid]]]].
Defined.

End Startup.
